(** * Reconciliation of the declarative layer list with the OpenLayers map

    A shallow embedding of
    [x-pack/plugins/gis/public/selectors/ol_map_selectors.js]
    and the properties of its reconciliation pass.

    The JavaScript heap is explicit: every OpenLayers layer object lives in a
    store ([objects]) and is named by a reference; the map's layer collection
    is a list of references, so that two holders of the same layer object
    observe each other's writes.  Exceptions are values of [outcome].  The
    recursion of [updateMapLayerOrder] is bounded by the call stack, which is
    the [fuel] argument: running out of it is the engine's [RangeError]. *)

From stdpp Require Import prelude strings.

Open Scope Z_scope.
Open Scope nat_scope.
Open Scope string_scope.
Open Scope list_scope.

(** ** JavaScript values used as layer ids *)

(** The primitive values a layer id can be.  Numbers are integers here: the
    only operation on ids is [===], which on primitives is equality of values. *)
Inductive Id : Type :=
  | IdUndefined
  | IdNull
  | IdBool (b : bool)
  | IdNum (n : Z)
  | IdStr (s : string).

#[global] Instance Id_eq_dec : EqDecision Id.
Proof. solve_decision. Defined.

(** JavaScript truthiness: [undefined], [null], [false], [0] and the empty
    string are falsy. *)
Definition truthy (v : Id) : bool :=
  match v with
  | IdUndefined | IdNull => false
  | IdBool b => b
  | IdNum n => negb (n =? 0)%Z
  | IdStr s => negb (String.eqb s EmptyString)
  end.

(** An element of the array built by [getLayersIds]: the layer's id, or the
    freshly allocated empty array that [|| []] puts in place of a falsy id.
    Each such array is a new object, so it is [===] to nothing it is ever
    compared with. *)
Inductive IdOrArray : Type :=
  | Raw (id : Id)
  | FreshArray.

#[global] Instance IdOrArray_eq_dec : EqDecision IdOrArray.
Proof. solve_decision. Defined.

(** [a === b] for an element of a [getLayersIds] array and a raw id. *)
Definition strict_eq (a : IdOrArray) (b : Id) : bool :=
  match a with
  | Raw i => bool_decide (i = b)
  | FreshArray => false
  end.

(** Truthiness of what [Array.prototype.find] returns: [undefined] when
    nothing matched, the matching element otherwise. *)
Definition found_truthy (r : option Id) : bool :=
  match r with
  | None => false
  | Some i => truthy i
  end.

Definition found_truthy_entry (r : option IdOrArray) : bool :=
  match r with
  | None => false
  | Some (Raw i) => truthy i
  | Some FreshArray => true
  end.

(** [Array.prototype.findIndex]: the first index whose element satisfies [p],
    or [-1]. *)
Fixpoint findIndex {A : Type} (p : A -> bool) (l : list A) : Z :=
  match l with
  | [] => (-1)%Z
  | x :: l' =>
      if p x then 0%Z
      else let k := findIndex p l' in
           if (k <? 0)%Z then (-1)%Z else (k + 1)%Z
  end.

(** ** Exceptions *)

Inductive exn : Type :=
  | Error (message : string)
  | TypeError
  | RangeError.

Inductive outcome (A : Type) : Type :=
  | Ok (a : A)
  | Throw (e : exn).

Arguments Ok {A} a.
Arguments Throw {A} e.

(** ** The declarative layer *)

(** Modelled from the spec: the [LAYER_TYPE] table of
    [../shared/layers/layer], which is not part of the sources at hand.  The
    three known tags, and any other tag a layer may carry. *)
Inductive LAYER_TYPE : Type :=
  | TILE
  | VECTOR
  | GEOHASH_GRID
  | UNKNOWN (tag : string).

#[global] Instance LAYER_TYPE_eq_dec : EqDecision LAYER_TYPE.
Proof. solve_decision. Defined.

(** What the selectors read from a layer: one field per getter. *)
Record Layer : Type := mkLayer {
  getId : Id;
  getType : LAYER_TYPE;
  isVisible : bool;
  isTemporary : bool;
  getCurrentStyle : string;
  descriptorSource : string  (* toLayerDescriptor().source *)
}.

Definition point : Type := (Z * Z)%type.

Record MapConstants : Type := mkMapConstants {
  mc_center : option point;
  mc_zoom : option Z
}.

(** ** The OpenLayers side *)

Inductive OLClass : Type :=
  | OLTile      (* ol.layer.Tile *)
  | OLVector    (* ol.layer.Vector *)
  | OLHeatmap.  (* ol.layer.Heatmap *)

Record OLLayer : Type := mkOLLayer {
  ol_class : OLClass;
  ol_id : Id;                 (* get('id') *)
  ol_visible : bool;
  ol_style : option string;
  ol_source : string
}.

(** A reference to a layer object: its slot in the store. *)
Abbreviation ref := nat (only parsing).

Record View : Type := mkView {
  getCenter : point;
  getZoom : Z
}.

(** The singleton [OL_MAP] together with the store of layer objects. *)
Record OLMap : Type := mkOLMap {
  getView : View;
  getLayers : list ref;
  objects : list OLLayer
}.

Inductive projection : Type :=
  | WEBMERCATOR
  | WGS_84.

(** Modelled from the spec: the external collaborators, which are opaque
    functions to the reconciliation: [ol.proj.transform] between the two
    projections and the style resolver [getOlLayerStyle] of
    [../shared/ol_layer_defaults]. *)
Class External : Type := mkExternal {
  transform : point -> projection -> projection -> point;
  getOlLayerStyle : string -> bool -> string
}.

(** The calls a pass makes on the view, on the style resolver and on the
    style setter of a layer, in the order they are made. *)
Inductive call : Type :=
  | SetZoom (z : Z)
  | SetCenter (p : point)
  | GetOlLayerStyle (style : string) (temporary : bool)
  | SetStyle (olLayer : ref) (style : string).

#[global] Instance call_eq_dec : EqDecision call.
Proof. solve_decision. Defined.

(** Modelled from the spec: the engine's layer collection (an [ol.Collection]
    over a JavaScript array).  [removeAt] is [splice(index, 1)] and hands back
    the element that was there, or [undefined]; [insertAt] is
    [splice(index, 0, elem)], which counts a negative index from the end and
    clamps it to the array; [push] appends. *)
Module Collection.

Definition removeAt {A : Type} (index : nat) (array : list A) : option A * list A :=
  (array !! index, delete index array).

Definition spliceStart (index : Z) (len : nat) : nat :=
  if (index <? 0)%Z
  then Z.to_nat (Z.max (Z.of_nat len + index) 0)
  else Z.to_nat (Z.min index (Z.of_nat len)).

Definition insertAt {A : Type} (index : Z) (elem : A) (array : list A) : list A :=
  let start := spliceStart index (length array) in
  take start array ++ elem :: drop start array.

Definition push {A : Type} (elem : A) (array : list A) : list A :=
  array ++ [elem].

End Collection.

(** [olLayer.get('id')]. *)
Definition get_id (objs : list OLLayer) (olLayer : ref) : Id :=
  match objs !! olLayer with
  | Some o => ol_id o
  | None => IdUndefined
  end.

Definition setVisible (olLayer : ref) (visible : bool) (objs : list OLLayer) : list OLLayer :=
  alter (fun o => mkOLLayer (ol_class o) (ol_id o) visible (ol_style o) (ol_source o)) olLayer objs.

Definition setStyle (olLayer : ref) (style : string) (objs : list OLLayer) : list OLLayer :=
  alter (fun o => mkOLLayer (ol_class o) (ol_id o) (ol_visible o) (Some style) (ol_source o)) olLayer objs.

(** Modelled from the spec: which layer classes expose the style setter
    ([olLayer.setStyle] is defined): the vector layer only. *)
Definition has_setStyle (objs : list OLLayer) (olLayer : ref) : bool :=
  match objs !! olLayer with
  | Some o => match ol_class o with OLVector => true | _ => false end
  | None => false
  end.

(** ** Layer-specific logic *)

Section Selectors.

Context `{External}.

(** Each converter builds one new layer object; [createCorrespondingOLLayer]
    tags it with the id and it takes the next free slot of the store. *)
Definition convertTmsLayersToOl (layer : Layer) : OLLayer :=
  mkOLLayer OLTile IdUndefined (isVisible layer) None (descriptorSource layer).

Definition generatePlaceHolderLayerForGeohashGrid (layer : Layer) : OLLayer :=
  mkOLLayer OLHeatmap IdUndefined (isVisible layer) None (descriptorSource layer).

Definition convertVectorLayersToOl (layer : Layer) : OLLayer * list call :=
  let style := getCurrentStyle layer in
  let applied := getOlLayerStyle style (isTemporary layer) in
  (mkOLLayer OLVector IdUndefined (isVisible layer) (Some applied) (descriptorSource layer),
   [GetOlLayerStyle style (isTemporary layer)]).

(** [olLayer.set('id', id)] on a layer object not yet in the store. *)
Definition set_id (id : Id) (o : OLLayer) : OLLayer :=
  mkOLLayer (ol_class o) id (ol_visible o) (ol_style o) (ol_source o).

Definition createCorrespondingOLLayer (objs : list OLLayer) (layer : Layer)
  : outcome (ref * list OLLayer * list call) :=
  let made :=
    match getType layer with
    | TILE => Ok (convertTmsLayersToOl layer, [])
    | VECTOR => Ok (convertVectorLayersToOl layer)
    | GEOHASH_GRID => Ok (generatePlaceHolderLayerForGeohashGrid layer, [])
    | UNKNOWN _ => Throw (Error "Cannot create corresponding OL layer")
    end in
  match made with
  | Throw e => Throw e
  | Ok (olLayer, log) =>
      Ok (length objs, objs ++ [set_id (getId layer) olLayer], log)
  end.

End Selectors.

(** ** OpenLayers helper function *)

Definition getLayersIds (objs : list OLLayer) (mapLayers : list ref) : list IdOrArray :=
  map (fun layer => let id := get_id objs layer in
                    if truthy id then Raw id else FreshArray) mapLayers.

(** [oldLayerOrder[idx]]: [undefined] past the end of the array. *)
Definition at_index (oldLayerOrder : list IdOrArray) (idx : nat) : IdOrArray :=
  default (Raw IdUndefined) (oldLayerOrder !! idx).

(** The scan of [newLayerOrder.some]: the first index, counted from [idx],
    at which the callback takes its first branch. *)
Fixpoint firstMismatch (oldLayerOrder : list IdOrArray) (newLayerOrder : list Id)
    (idx : nat) : option nat :=
  match newLayerOrder with
  | [] => None
  | newOrderId :: rest =>
      if negb (strict_eq (at_index oldLayerOrder idx) newOrderId)
      then Some idx
      else firstMismatch oldLayerOrder rest (S idx)
  end.

(** [updateMapLayerOrder].  The result carries the collection and the number
    of relocations (one [removeAt] followed by one [insertAt]) made.  When
    [removeAt] finds nothing at [idx], [undefined] is inserted in the
    collection and the re-read by [getLayersIds] dereferences it: a
    [TypeError]. *)
Fixpoint updateMapLayerOrder (fuel : nat) (objs : list OLLayer) (mapLayers : list ref)
    (oldLayerOrder : list IdOrArray) (newLayerOrder : list Id)
  : outcome (list ref * nat) :=
  match fuel with
  | O => Throw RangeError
  | S fuel' =>
      match firstMismatch oldLayerOrder newLayerOrder 0 with
      | None => Ok (mapLayers, 0)
      | Some idx =>
          match Collection.removeAt idx mapLayers with
          | (None, _) => Throw TypeError
          | (Some layerToMove, removed) =>
              let newIdx :=
                findIndex (fun id => strict_eq (at_index oldLayerOrder idx) id) newLayerOrder in
              let inserted := Collection.insertAt newIdx layerToMove removed in
              match updateMapLayerOrder fuel' objs inserted
                      (getLayersIds objs inserted) newLayerOrder with
              | Ok (final, steps) => Ok (final, S steps)
              | Throw e => Throw e
              end
          end
      end
  end.

Definition addLayers (objs : list OLLayer) (mapLayers : list ref) (newLayer : ref)
    (currentLayersIds : list IdOrArray) : list ref :=
  if negb (found_truthy_entry
             (find (fun layerId => strict_eq layerId (get_id objs newLayer)) currentLayersIds))
  then Collection.push newLayer mapLayers
  else mapLayers.

(** The first loop of [removeLayers]: the indices pushed on [layersToRemove]. *)
Fixpoint layersToRemove (objs : list OLLayer) (existingMapLayers : list ref)
    (updatedLayersIds : list Id) (idx : nat) : list nat :=
  match existingMapLayers with
  | [] => []
  | mapLayer :: rest =>
      let found := find (fun id => bool_decide (id = get_id objs mapLayer)) updatedLayersIds in
      (if negb (found_truthy found) then [idx] else [])
        ++ layersToRemove objs rest updatedLayersIds (S idx)
  end.

Definition removeLayers (objs : list OLLayer) (existingMapLayers : list ref)
    (updatedLayersIds : list Id) : list ref :=
  foldl (fun array layerIdx => (Collection.removeAt layerIdx array).2)
        existingMapLayers
        (layersToRemove objs existingMapLayers updatedLayersIds 0).

(** ** Selectors

    [createSelector] caches the last result of each selector and runs its
    result function again only when an input changed by reference.  The
    definitions below are the result functions, and [syncOLState] chains them
    as a pass in which every one of them runs. *)

Section Pass.

Context `{External}.

Definition updateFillAndOutlineStyle (objs : list OLLayer) (olLayer : ref) (layer : Layer)
  : list OLLayer * list call :=
  let style := getCurrentStyle layer in
  let appliedStyle := getOlLayerStyle style (isTemporary layer) in
  if has_setStyle objs olLayer
  then (setStyle olLayer appliedStyle objs,
        [GetOlLayerStyle style (isTemporary layer); SetStyle olLayer appliedStyle])
  else (objs, [GetOlLayerStyle style (isTemporary layer)]).

Definition setZoom (zoom : Z) (olView : View) : View :=
  mkView (getCenter olView) zoom.

Definition setCenter (center : point) (olView : View) : View :=
  mkView center (getZoom olView).

Definition with_view (olView : View) (olMap : OLMap) : OLMap :=
  mkOLMap olView (getLayers olMap) (objects olMap).

Definition with_layers (mapLayers : list ref) (olMap : OLMap) : OLMap :=
  mkOLMap (getView olMap) mapLayers (objects olMap).

Definition with_objects (objs : list OLLayer) (olMap : OLMap) : OLMap :=
  mkOLMap (getView olMap) (getLayers olMap) objs.

(** The map the module builds when it is loaded: no layer, and the view at
    longitude and latitude 0, zoom 0.  [ol.proj.fromLonLat] is the transform
    from WGS 84 to the web Mercator projection. *)
Definition OL_VIEW : View :=
  mkView (transform (0, 0)%Z WGS_84 WEBMERCATOR) 0%Z.

Definition OL_MAP : OLMap :=
  mkOLMap OL_VIEW [] [].

Definition getOLImplementation : OLMap := OL_MAP.

Definition syncOLMap (olMap : OLMap) (mapConstants : MapConstants) : OLMap * list call :=
  let olView := getView olMap in
  let center := getCenter olView in
  let zoom := getZoom olView in
  let centerInLonLat := transform center WEBMERCATOR WGS_84 in
  let '(olView1, log1) :=
    match mc_zoom mapConstants with
    | Some z => if negb (bool_decide (z = zoom))
                then (setZoom z olView, [SetZoom z])
                else (olView, [])
    | None => (olView, [])
    end in
  let '(olView2, log2) :=
    match mc_center mapConstants with
    | Some c => if negb (bool_decide (c = centerInLonLat))
                then let centerInWorldRef := transform c WGS_84 WEBMERCATOR in
                     (setCenter centerInWorldRef olView1, [SetCenter centerInWorldRef])
                else (olView1, [])
    | None => (olView1, [])
    end in
  (with_view olView2 olMap, log1 ++ log2).

Fixpoint syncLayerInitialization (olMap : OLMap) (layerList : list Layer)
  : outcome (list (Layer * ref) * OLMap * list call) :=
  match layerList with
  | [] => Ok ([], olMap, [])
  | layer :: rest =>
      let olLayerArray := getLayers olMap in
      let found :=
        find (fun olLayer => bool_decide (get_id (objects olMap) olLayer = getId layer))
             olLayerArray in
      let tuple :=
        match found with
        | Some olLayer => Ok (olLayer, objects olMap, [])
        | None => createCorrespondingOLLayer (objects olMap) layer
        end in
      match tuple with
      | Throw e => Throw e
      | Ok (olLayer, objs, log) =>
          match syncLayerInitialization (with_objects objs olMap) rest with
          | Throw e => Throw e
          | Ok (tuples, olMap', log') => Ok ((layer, olLayer) :: tuples, olMap', log ++ log')
          end
      end
  end.

(** One turn of the [forEach] over [layersWithOl]: add, set visibility,
    restyle a VECTOR layer. *)
Definition addAndUpdate (layersIds : list IdOrArray) (st : OLMap * list call)
    (tuple : Layer * ref) : OLMap * list call :=
  let '(olMap, log) := st in
  let '(layer, olLayer) := tuple in
  let mapLayers := addLayers (objects olMap) (getLayers olMap) olLayer layersIds in
  let objs := setVisible olLayer (isVisible layer) (objects olMap) in
  let '(objs', log') :=
    if bool_decide (getType layer = VECTOR)
    then updateFillAndOutlineStyle objs olLayer layer
    else (objs, []) in
  (mkOLMap (getView olMap) mapLayers objs', log ++ log').

Definition addsAndUpdates (olMap : OLMap) (layersWithOl : list (Layer * ref))
  : OLMap * list call :=
  let layersIds := getLayersIds (objects olMap) (getLayers olMap) in
  foldl (addAndUpdate layersIds) (olMap, []) layersWithOl.

(** The result function of [syncOLState].  The guard before the reordering
    compares two distinct arrays by reference, so the reordering always runs. *)
Definition syncOLState_result (fuel : nat) (olMap : OLMap) (layersWithOl : list (Layer * ref))
  : outcome (OLMap * list call) :=
  let '(olMap1, log) := addsAndUpdates olMap layersWithOl in
  let newLayerIdsOrder := map (fun tuple => getId tuple.1) layersWithOl in
  let olMap2 :=
    with_layers (removeLayers (objects olMap1) (getLayers olMap1) newLayerIdsOrder) olMap1 in
  let oldLayerIdsOrder := getLayersIds (objects olMap2) (getLayers olMap2) in
  match updateMapLayerOrder fuel (objects olMap2) (getLayers olMap2)
          oldLayerIdsOrder newLayerIdsOrder with
  | Throw e => Throw e
  | Ok (mapLayers, _) => Ok (with_layers mapLayers olMap2, log)
  end.

(** A full pass: the view, the pairing of layers with layer objects, then the
    additions, updates, removals and the reordering. *)
Definition syncOLState (fuel : nat) (olMap : OLMap) (mapConstants : MapConstants)
    (layerList : list Layer) : outcome (OLMap * list call) :=
  let '(olMap1, log1) := syncOLMap olMap mapConstants in
  match syncLayerInitialization olMap1 layerList with
  | Throw e => Throw e
  | Ok (layersWithOl, olMap2, log2) =>
      match syncOLState_result fuel olMap2 layersWithOl with
      | Throw e => Throw e
      | Ok (olMap3, log3) => Ok (olMap3, log1 ++ log2 ++ log3)
      end
  end.

End Pass.

(** ** Notions used in the statements *)

(** The ids of the layers of a collection, in order. *)
Definition ids_of (objs : list OLLayer) (mapLayers : list ref) : list Id :=
  map (get_id objs) mapLayers.

(** The element [getLayersIds] produces for a layer of a given id. *)
Definition entry_of (id : Id) : IdOrArray :=
  if truthy id then Raw id else FreshArray.

(** The measure of the reordering.

    Reading the positions at which the collection already agrees with the
    target as the bits of a number, the last position being the most
    significant: a relocation sets the bit of the position it moves the layer
    to, which was clear, and changes no bit above it.  The layer never moves
    to the first position, so the count can leave that position out. *)
Fixpoint score (cur new : list Id) : nat :=
  match cur, new with
  | a :: cur', b :: new' => (if bool_decide (a = b) then 1 else 0) + 2 * score cur' new'
  | _, _ => 0
  end.

(** One relocation, on the id sequences: the layer at the first mismatch [i]
    goes to the position [t] its id has in the target. *)
Definition relocate {A : Type} (i t : nat) (l : list A) : list A :=
  match l !! i with
  | Some x => take t (delete i l) ++ x :: drop t (delete i l)
  | None => l
  end.

(** The layer types [createCorrespondingOLLayer] has a case for, and the
    class of the layer object it makes for each. *)
Definition supported (type : LAYER_TYPE) : bool :=
  match type with
  | TILE | VECTOR | GEOHASH_GRID => true
  | UNKNOWN _ => false
  end.

Definition class_of (type : LAYER_TYPE) : OLClass :=
  match type with
  | VECTOR => OLVector
  | GEOHASH_GRID => OLHeatmap
  | _ => OLTile
  end.

(** The calls one turn of the loop may make for [layer] paired with [olLayer]. *)
Definition restyling `{External} (layer : Layer) (olLayer : ref) (c : call) : Prop :=
  getType layer = VECTOR /\
  (c = GetOlLayerStyle (getCurrentStyle layer) (isTemporary layer) \/
   c = SetStyle olLayer (getOlLayerStyle (getCurrentStyle layer) (isTemporary layer))).

(** The test of [removeLayers] on a layer of the collection, as a test of
    what stays: the layer's id is truthy and among the wanted ids. *)
Definition wanted (objs : list OLLayer) (updatedLayersIds : list Id) (mapLayer : ref) : bool :=
  truthy (get_id objs mapLayer) && bool_decide (get_id objs mapLayer ∈ updatedLayersIds).

(** The test of [addLayers] on a layer object, as a test of what is pushed. *)
Definition pushed (objs : list OLLayer) (currentLayersIds : list IdOrArray) (newLayer : ref)
  : bool :=
  negb (truthy (get_id objs newLayer)
        && bool_decide (Raw (get_id objs newLayer) ∈ currentLayersIds)).

(** What the turn of the loop for [layer] writes on the layer object it is
    paired with. *)
Definition updated `{External} (layer : Layer) (o : OLLayer) : OLLayer :=
  let o1 := mkOLLayer (ol_class o) (ol_id o) (isVisible layer) (ol_style o) (ol_source o) in
  match getType layer, ol_class o with
  | VECTOR, OLVector =>
      mkOLLayer (ol_class o1) (ol_id o1) (ol_visible o1)
                (Some (getOlLayerStyle (getCurrentStyle layer) (isTemporary layer)))
                (ol_source o1)
  | _, _ => o1
  end.

(** The writes of the whole loop on the store. *)
Definition updates `{External} (objs : list OLLayer) (layersWithOl : list (Layer * nat))
  : list OLLayer :=
  foldl (fun objs tuple => alter (updated tuple.1) tuple.2 objs) objs layersWithOl.

(** A map that agrees with a layer list and constants: the collection holds
    the layers of the ids of the list, in its order, the ids being distinct and
    truthy; each layer object of the collection is as the loop of updates
    leaves it for the layer of its id; the view is as [syncOLMap] leaves it. *)
Definition agrees `{External} (olMap : OLMap) (mapConstants : MapConstants)
    (layerList : list Layer) : Prop :=
  ids_of (objects olMap) (getLayers olMap) = map getId layerList /\
  NoDup (map getId layerList) /\
  Forall (fun id => truthy id = true) (map getId layerList) /\
  (forall layer olLayer,
      layer ∈ layerList -> olLayer ∈ getLayers olMap ->
      get_id (objects olMap) olLayer = getId layer ->
      exists o, objects olMap !! olLayer = Some o /\ updated layer o = o) /\
  getView (syncOLMap olMap mapConstants).1 = getView olMap.

(** What an observer of the engine sees: the view, and the layers of the
    collection in order with their id, visibility and style. *)
Definition observable (olMap : OLMap) : View * list (option OLLayer) :=
  (getView olMap, map (fun olLayer => objects olMap !! olLayer) (getLayers olMap)).

(** ** Sample data *)

Module Sample.

#[local] Instance externals : External :=
  mkExternal (fun p from to => match from, to with
                               | WGS_84, WEBMERCATOR => (p.1 * 111319, p.2 * 111319)%Z
                               | WEBMERCATOR, WGS_84 => (p.1 / 111319, p.2 / 111319)%Z
                               | _, _ => p
                               end)
             (fun style temporary => if temporary then "temporary" else style).

Definition tile (id : string) : Layer :=
  mkLayer (IdStr id) TILE true false "plain" "http://tiles".

Definition vector (id : string) : Layer :=
  mkLayer (IdStr id) VECTOR true false "blue" "features".

Definition olTile (id : string) : OLLayer :=
  mkOLLayer OLTile (IdStr id) true None "http://tiles".

Definition origin : View := mkView (0, 0)%Z 0%Z.

Definition noConstants : MapConstants := mkMapConstants None None.

(** An engine holding the tile layers of the given ids, in that order. *)
Definition engine (ids : list string) : OLMap :=
  mkOLMap origin (seq 0 (length ids)) (map olTile ids).

End Sample.

(** * Properties *)

(** ** The array helpers *)

Section ArrayFacts.

Context {A : Type}.
Implicit Types (l : list A) (p : A -> bool).

Lemma findIndex_first p l t y :
  l !! t = Some y -> p y = true ->
  (forall j z, j < t -> l !! j = Some z -> p z = false) ->
  findIndex p l = Z.of_nat t.
Proof.
  revert t. induction l as [|x l IH]; intros t Ht Hy Hbefore; [done|].
  destruct t as [|t]; simpl in *.
  - injection Ht as ->. by rewrite Hy.
  - rewrite (Hbefore 0 x) by (done || lia).
    rewrite (IH t Ht Hy).
    + destruct (Z.of_nat t <? 0)%Z eqn:E; lia.
    + intros j z Hj Hz. apply (Hbefore (S j) z); [lia|done].
Qed.

Lemma insertAt_within (t : nat) (x : A) l :
  t <= length l ->
  Collection.insertAt (Z.of_nat t) x l = take t l ++ x :: drop t l.
Proof.
  intros Ht. unfold Collection.insertAt, Collection.spliceStart.
  destruct (Z.of_nat t <? 0)%Z eqn:E; [lia|].
  replace (Z.to_nat (Z.min (Z.of_nat t) (Z.of_nat (length l)))) with t by lia.
  done.
Qed.

End ArrayFacts.

Lemma delete_map {A B : Type} (f : A -> B) (i : nat) (l : list A) :
  map f (delete i l) = delete i (map f l).
Proof.
  rewrite !delete_take_drop.
  change (map f) with (fmap (M:=list) f).
  by rewrite fmap_app, fmap_take, fmap_drop.
Qed.

(** ** The scan of [updateMapLayerOrder] *)

Lemma firstMismatch_None oldLayerOrder newLayerOrder idx :
  firstMismatch oldLayerOrder newLayerOrder idx = None <->
  (forall k id, newLayerOrder !! k = Some id ->
                strict_eq (at_index oldLayerOrder (idx + k)) id = true).
Proof.
  revert idx. induction newLayerOrder as [|n new IH]; intros idx; simpl.
  - split; [intros _ k id Hk; by destruct k | done].
  - destruct (strict_eq (at_index oldLayerOrder idx) n) eqn:E; simpl.
    + rewrite IH. split.
      * intros Hall [|k] id Hk; simpl in Hk.
        -- injection Hk as <-. by rewrite Nat.add_0_r.
        -- replace (idx + S k) with (S idx + k) by lia. by apply Hall.
      * intros Hall k id Hk. replace (S idx + k) with (idx + S k) by lia.
        by apply Hall.
    + split; [done|]. intros Hall. specialize (Hall 0 n eq_refl).
      rewrite Nat.add_0_r in Hall. congruence.
Qed.

Lemma firstMismatch_Some oldLayerOrder newLayerOrder idx0 idx :
  firstMismatch oldLayerOrder newLayerOrder idx0 = Some idx ->
  exists k id,
    idx = idx0 + k /\ newLayerOrder !! k = Some id /\
    strict_eq (at_index oldLayerOrder idx) id = false /\
    (forall j id', j < k -> newLayerOrder !! j = Some id' ->
                   strict_eq (at_index oldLayerOrder (idx0 + j)) id' = true).
Proof.
  revert idx0. induction newLayerOrder as [|n new IH]; intros idx0; simpl; [done|].
  destruct (strict_eq (at_index oldLayerOrder idx0) n) eqn:E; simpl.
  - intros Hm. destruct (IH _ Hm) as (k & id & -> & Hk & Hne & Hbefore).
    exists (S k), id. split_and!; [lia|done|done|].
    intros [|j] id' Hj Hid'; simpl in Hid'.
    + injection Hid' as <-. by rewrite Nat.add_0_r.
    + replace (idx0 + S j) with (S idx0 + j) by lia. apply Hbefore; [lia|done].
  - intros [= <-]. exists 0, n. rewrite Nat.add_0_r.
    split_and!; [done|done|done|]. intros j id' Hj. lia.
Qed.

Lemma getLayersIds_truthy objs mapLayers :
  Forall (fun id => truthy id = true) (ids_of objs mapLayers) ->
  getLayersIds objs mapLayers = map Raw (ids_of objs mapLayers).
Proof.
  unfold getLayersIds, ids_of. induction mapLayers as [|r l IH]; simpl; [done|].
  intros Hall. apply Forall_cons in Hall as [Hr Hl].
  rewrite Hr. f_equal. by apply IH.
Qed.

Lemma at_index_Raw cur idx x :
  cur !! idx = Some x -> at_index (map Raw cur) idx = Raw x.
Proof.
  intros Hx. unfold at_index.
  change (map Raw cur) with (Raw <$> cur). by rewrite list_lookup_fmap, Hx.
Qed.

Lemma strict_eq_Raw a b : strict_eq (Raw a) b = bool_decide (a = b).
Proof. done. Qed.

Lemma score_lt cur new : score cur new < 2 ^ length cur.
Proof.
  revert new. induction cur as [|a cur IH]; intros [|b new]; simpl; try lia.
  - specialize (IH []). lia.
  - specialize (IH new). case_bool_decide; lia.
Qed.

Lemma tail_length {A : Type} (l : list A) : length (tail l) = length l - 1.
Proof. destruct l; simpl; lia. Qed.

Lemma score_app a1 a2 b1 b2 :
  length a1 = length b1 ->
  score (a1 ++ a2) (b1 ++ b2) = score a1 b1 + 2 ^ length a1 * score a2 b2.
Proof.
  revert b1. induction a1 as [|a a1 IH]; intros [|b b1] Hlen; simpl in *; try lia.
  rewrite (IH b1) by lia. lia.
Qed.

Lemma score_raise a b v q x w z :
  length a = length v -> length b = length v -> q <> x ->
  score (a ++ q :: w) (v ++ x :: z) < score (b ++ x :: w) (v ++ x :: z).
Proof.
  intros Ha Hb Hq. rewrite !score_app by done. simpl.
  rewrite bool_decide_eq_false_2 by done. rewrite bool_decide_eq_true_2 by done.
  pose proof (score_lt a v) as Hlt. rewrite Ha, Hb in *.
  assert (2 ^ length v <> 0) by (apply Nat.pow_nonzero; lia).
  nia.
Qed.

(** The same, leaving the first position out of the count: this is the
    measure that gives the bound its exact value. *)
Lemma score_raise_tail a b v q x w z :
  length a = length v -> length b = length v -> 0 < length v -> q <> x ->
  score (tail (a ++ q :: w)) (tail (v ++ x :: z))
  < score (tail (b ++ x :: w)) (tail (v ++ x :: z)).
Proof.
  destruct a as [|a0 a], b as [|b0 b], v as [|v0 v]; simpl; try lia.
  intros Ha Hb _ Hq. apply score_raise; [lia|lia|done].
Qed.

Lemma relocate_Permutation {A : Type} (i t : nat) (l : list A) :
  Permutation (relocate i t l) l.
Proof.
  unfold relocate. destruct (l !! i) as [x|] eqn:Hx; [|done].
  rewrite <- Permutation_middle, take_drop. symmetry. by apply delete_Permutation.
Qed.

(** A relocation from [i] to a later position [t]: what is at [t] and after
    it beforehand, and afterwards. *)
Lemma relocate_decompose {A : Type} (cur new : list A) i t x :
  length cur = length new -> NoDup cur ->
  cur !! i = Some x -> new !! t = Some x -> i < t ->
  exists a b v q w z,
    cur = a ++ q :: w /\ relocate i t cur = b ++ x :: w /\ new = v ++ x :: z /\
    length a = t /\ length b = t /\ length v = t /\ q <> x.
Proof.
  intros Hlen Hnd Hx Ht Hit.
  pose proof (lookup_lt_Some _ _ _ Hx) as Hin.
  pose proof (lookup_lt_Some _ _ _ Ht) as Htn.
  destruct (lookup_lt_is_Some_2 cur t) as [q Hq]; [lia|].
  exists (take t cur), (take t (delete i cur)), (take t new), q,
         (drop (S t) cur), (drop (S t) new).
  split_and!.
  - symmetry. by apply take_drop_middle.
  - unfold relocate. rewrite Hx. do 2 f_equal.
    rewrite delete_take_drop, drop_app_ge by (rewrite length_take; lia).
    rewrite length_take, drop_drop. f_equal. lia.
  - symmetry. by apply take_drop_middle.
  - rewrite length_take. lia.
  - rewrite length_take, length_delete by (by eexists). lia.
  - rewrite length_take. lia.
  - intros ->. pose proof (NoDup_lookup _ _ _ _ Hnd Hx Hq). lia.
Qed.

Lemma relocate_score cur new i t x :
  length cur = length new -> NoDup cur ->
  cur !! i = Some x -> new !! t = Some x -> i < t ->
  score (tail cur) (tail new) < score (tail (relocate i t cur)) (tail new).
Proof.
  intros Hlen Hnd Hx Ht Hit.
  destruct (relocate_decompose cur new i t x)
    as (a & b & v & q & w & z & Hcur & -> & Hnew & Ha & Hb & Hv & Hq); [done..|].
  rewrite Hcur, Hnew. apply score_raise_tail; [lia..|done].
Qed.

Lemma relocate_map {A B : Type} (f : A -> B) (i t : nat) (l : list A) :
  map f (relocate i t l) = relocate i t (map f l).
Proof.
  unfold relocate. change (map f) with (fmap (M:=list) f).
  rewrite list_lookup_fmap. destruct (l !! i) as [x|]; simpl; [|done].
  by rewrite fmap_app, fmap_cons, fmap_take, fmap_drop, <- !delete_map.
Qed.

(** ** Convergence of [updateMapLayerOrder] *)

Section Reorder.

Variable objs : list OLLayer.
Variable newLayerOrder : list Id.
Hypothesis new_distinct : NoDup newLayerOrder.
Hypothesis new_truthy : Forall (fun id => truthy id = true) newLayerOrder.

Lemma permuted_truthy mapLayers :
  Permutation (ids_of objs mapLayers) newLayerOrder ->
  Forall (fun id => truthy id = true) (ids_of objs mapLayers).
Proof. intros Hp. by rewrite Hp. Qed.

Lemma scan_agrees mapLayers :
  length (ids_of objs mapLayers) = length newLayerOrder ->
  firstMismatch (map Raw (ids_of objs mapLayers)) newLayerOrder 0 = None ->
  ids_of objs mapLayers = newLayerOrder.
Proof.
  intros Hlen Hscan. rewrite firstMismatch_None in Hscan.
  apply (list_eq_same_length _ _ (length newLayerOrder)); [done..|].
  intros k a b Hk Ha Hb. specialize (Hscan k b Hb). simpl in Hscan.
  rewrite (at_index_Raw _ _ _ Ha), strict_eq_Raw in Hscan.
  by apply bool_decide_eq_true in Hscan.
Qed.

Lemma scan_mismatch mapLayers idx :
  length (ids_of objs mapLayers) = length newLayerOrder ->
  firstMismatch (map Raw (ids_of objs mapLayers)) newLayerOrder 0 = Some idx ->
  exists x y,
    ids_of objs mapLayers !! idx = Some x /\ newLayerOrder !! idx = Some y /\ x <> y /\
    take idx (ids_of objs mapLayers) = take idx newLayerOrder.
Proof.
  intros Hlen Hscan.
  apply firstMismatch_Some in Hscan as (k & y & -> & Hy & Hne & Hbefore). simpl in *.
  pose proof (lookup_lt_Some _ _ _ Hy) as Hk.
  destruct (lookup_lt_is_Some_2 (ids_of objs mapLayers) k) as [x Hx]; [lia|].
  exists x, y. split_and!; [done|done|..].
  - rewrite (at_index_Raw _ _ _ Hx), strict_eq_Raw in Hne.
    by apply bool_decide_eq_false in Hne.
  - apply list_eq. intros j. destruct (decide (j < k)) as [Hj|Hj].
    + rewrite !lookup_take_lt by done.
      destruct (lookup_lt_is_Some_2 newLayerOrder j) as [b Hb]; [lia|].
      destruct (lookup_lt_is_Some_2 (ids_of objs mapLayers) j) as [a Ha]; [lia|].
      specialize (Hbefore j b Hj Hb).
      rewrite (at_index_Raw _ _ _ Ha), strict_eq_Raw in Hbefore.
      apply bool_decide_eq_true in Hbefore. congruence.
    + rewrite !lookup_take_ge by lia. done.
Qed.

Lemma reorder_step mapLayers idx :
  Permutation (ids_of objs mapLayers) newLayerOrder ->
  firstMismatch (getLayersIds objs mapLayers) newLayerOrder 0 = Some idx ->
  exists layerToMove t,
    Collection.removeAt idx mapLayers = (Some layerToMove, delete idx mapLayers) /\
    findIndex (fun id => strict_eq (at_index (getLayersIds objs mapLayers) idx) id)
              newLayerOrder = Z.of_nat t /\
    Collection.insertAt (Z.of_nat t) layerToMove (delete idx mapLayers)
      = relocate idx t mapLayers /\
    score (tail (ids_of objs mapLayers)) (tail newLayerOrder)
      < score (tail (ids_of objs (relocate idx t mapLayers))) (tail newLayerOrder).
Proof.
  intros Hperm. rewrite (getLayersIds_truthy _ _ (permuted_truthy _ Hperm)).
  intros Hscan. pose proof (Permutation_length Hperm) as Hlen.
  destruct (scan_mismatch _ _ Hlen Hscan) as (x & y & Hx & Hy & Hxy & Hpre).
  assert (Hcur_distinct : NoDup (ids_of objs mapLayers)) by (by rewrite Hperm).
  assert (x ∈ newLayerOrder) as Hin.
  { rewrite <- Hperm. by eapply list_elem_of_lookup_2. }
  apply list_elem_of_lookup_1 in Hin as [t Ht].
  assert (idx < t) as Hlt.
  { destruct (decide (idx < t)) as [|Hge]; [done|]. exfalso.
    destruct (decide (t = idx)) as [->|Hne]; [congruence|].
    assert (ids_of objs mapLayers !! t = Some x) as Hdup.
    { rewrite <- (lookup_take_lt _ idx) by lia. rewrite Hpre.
      rewrite lookup_take_lt by lia. done. }
    pose proof (NoDup_lookup _ _ _ _ Hcur_distinct Hx Hdup). lia. }
  unfold ids_of in Hx. change (map (get_id objs) mapLayers) with (get_id objs <$> mapLayers) in Hx.
  rewrite list_lookup_fmap in Hx.
  destruct (mapLayers !! idx) as [layerToMove|] eqn:Hr; [|done]. simpl in Hx.
  exists layerToMove, t. split_and!.
  - unfold Collection.removeAt. by rewrite Hr.
  - apply (findIndex_first _ _ t x); [done|..].
    + rewrite (at_index_Raw _ idx (get_id objs layerToMove)).
      * rewrite strict_eq_Raw. apply bool_decide_eq_true. congruence.
      * unfold ids_of. change (map (get_id objs) mapLayers) with (get_id objs <$> mapLayers).
        by rewrite list_lookup_fmap, Hr.
    + intros j z Hj Hz.
      rewrite (at_index_Raw _ idx (get_id objs layerToMove)).
      * rewrite strict_eq_Raw. apply bool_decide_eq_false. intros Heq.
        assert (newLayerOrder !! j = Some x) as Hz' by congruence.
        pose proof (NoDup_lookup _ _ _ _ new_distinct Ht Hz'). lia.
      * unfold ids_of. change (map (get_id objs) mapLayers) with (get_id objs <$> mapLayers).
        by rewrite list_lookup_fmap, Hr.
  - rewrite insertAt_within.
    + unfold relocate. by rewrite Hr.
    + rewrite length_delete by (by eexists).
      apply lookup_lt_Some in Ht. unfold ids_of in Hlen. rewrite length_map in Hlen. lia.
  - unfold ids_of at 2. rewrite relocate_map.
    apply (relocate_score _ _ _ _ x); try done.
    unfold ids_of. change (map (get_id objs) mapLayers) with (get_id objs <$> mapLayers).
    by rewrite list_lookup_fmap, Hr.
Qed.

Lemma reorder_converges k :
  forall mapLayers fuel,
    Permutation (ids_of objs mapLayers) newLayerOrder ->
    2 ^ (length newLayerOrder - 1) - 1
      - score (tail (ids_of objs mapLayers)) (tail newLayerOrder) <= k ->
    k < fuel ->
    exists final steps,
      updateMapLayerOrder fuel objs mapLayers (getLayersIds objs mapLayers) newLayerOrder
        = Ok (final, steps) /\
      steps <= k /\ ids_of objs final = newLayerOrder.
Proof.
  induction k as [k IH] using lt_wf_ind.
  intros mapLayers [|fuel] Hperm Hk Hfuel; [lia|]. cbn [updateMapLayerOrder].
  destruct (firstMismatch (getLayersIds objs mapLayers) newLayerOrder 0) as [idx|] eqn:Hscan.
  - destruct (reorder_step _ _ Hperm Hscan) as (layerToMove & t & -> & -> & -> & Hscore).
    assert (Permutation (ids_of objs (relocate idx t mapLayers)) newLayerOrder) as Hperm'.
    { unfold ids_of. rewrite relocate_map, relocate_Permutation. done. }
    pose proof (score_lt (tail (ids_of objs (relocate idx t mapLayers)))
                  (tail newLayerOrder)) as Hbound.
    rewrite tail_length, (Permutation_length Hperm') in Hbound.
    destruct k as [|k]; [lia|].
    destruct (IH k (Nat.lt_succ_diag_r k) (relocate idx t mapLayers) fuel Hperm')
      as (final & steps & -> & Hsteps & Hfinal); [lia..|].
    exists final, (S steps). split_and!; [done|lia|done].
  - exists mapLayers, 0. split_and!; [done|lia|].
    rewrite (getLayersIds_truthy _ _ (permuted_truthy _ Hperm)) in Hscan.
    apply scan_agrees; [|done]. by apply Permutation_length.
Qed.

End Reorder.

(** C2 (amended).  For a collection whose ids are a permutation of the
    [n] distinct, truthy ids of [newLayerOrder], [updateMapLayerOrder] returns
    once the call stack has room for [2 ^ (n - 1)] activations; it has then
    made at most [2 ^ (n - 1) - 1] relocations and the ids of the collection
    are [newLayerOrder], in that order. *)
Theorem updateMapLayerOrder_converges objs mapLayers newLayerOrder fuel :
  Permutation (ids_of objs mapLayers) newLayerOrder ->
  NoDup newLayerOrder ->
  Forall (fun id => truthy id = true) newLayerOrder ->
  2 ^ (length newLayerOrder - 1) <= fuel ->
  exists final steps,
    updateMapLayerOrder fuel objs mapLayers (getLayersIds objs mapLayers) newLayerOrder
      = Ok (final, steps) /\
    steps <= 2 ^ (length newLayerOrder - 1) - 1 /\
    ids_of objs final = newLayerOrder.
Proof.
  intros Hperm Hdistinct Htruthy Hfuel.
  assert (2 ^ (length newLayerOrder - 1) <> 0) by (apply Nat.pow_nonzero; lia).
  apply (reorder_converges objs newLayerOrder Hdistinct Htruthy
           (2 ^ (length newLayerOrder - 1) - 1)); [done|lia|lia].
Qed.

Lemma updateMapLayerOrder_converges_witness :
  exists final steps,
    updateMapLayerOrder 4 (objects (Sample.engine ["A"; "B"; "C"])) [0; 1; 2]
      (getLayersIds (objects (Sample.engine ["A"; "B"; "C"])) [0; 1; 2])
      [IdStr "C"; IdStr "A"; IdStr "B"] = Ok (final, steps) /\
    steps <= 2 ^ (3 - 1) - 1 /\
    ids_of (objects (Sample.engine ["A"; "B"; "C"])) final
      = [IdStr "C"; IdStr "A"; IdStr "B"].
Proof.
  apply (updateMapLayerOrder_converges
           (objects (Sample.engine ["A"; "B"; "C"])) [0; 1; 2]
           [IdStr "C"; IdStr "A"; IdStr "B"] 4).
  - apply (bool_decide_unpack _). vm_compute. exact I.
  - apply (bool_decide_unpack _). vm_compute. exact I.
  - repeat constructor.
  - simpl. lia.
Defined.

(** C2, the bound as the claim has it ([n] relocations) fails: turning
    [A; B; C; D] into [D; A; B; C] takes seven relocations, whatever room the
    call stack has. *)
Lemma updateMapLayerOrder_exceeds_n :
  let objs := objects (Sample.engine ["A"; "B"; "C"; "D"]) in
  let desiredIds := [IdStr "D"; IdStr "A"; IdStr "B"; IdStr "C"] in
  Permutation (ids_of objs [0; 1; 2; 3]) desiredIds /\
  NoDup desiredIds /\
  Forall (fun id => truthy id = true) desiredIds /\
  ~ (exists fuel final steps,
       updateMapLayerOrder fuel objs [0; 1; 2; 3] (getLayersIds objs [0; 1; 2; 3]) desiredIds
         = Ok (final, steps) /\
       steps <= length desiredIds /\
       ids_of objs final = desiredIds).
Proof.
  split_and!.
  - apply (bool_decide_unpack _). vm_compute. exact I.
  - apply (bool_decide_unpack _). vm_compute. exact I.
  - repeat constructor.
  - intros (fuel & final & steps & Hrun & Hsteps & _).
    do 8 (destruct fuel as [|fuel]; [vm_compute in Hrun; discriminate|]).
    vm_compute in Hrun. injection Hrun as _ <-. simpl in Hsteps. lia.
Qed.

(** ** No check of the permutation *)

(** With a layer in the collection whose id is not the one wanted, and
    nothing else, every relocation puts the layer back where it was: the
    recursion ends with the call stack. *)
Lemma updateMapLayerOrder_unbounded fuel objs layer id :
  get_id objs layer <> id ->
  updateMapLayerOrder fuel objs [layer] (getLayersIds objs [layer]) [id] = Throw RangeError.
Proof.
  intros Hne. induction fuel as [|fuel IH]; [done|].
  assert (strict_eq (at_index (getLayersIds objs [layer]) 0) id = false) as Hmis.
  { unfold getLayersIds, at_index. simpl. destruct (truthy (get_id objs layer)); [|done].
    simpl. by apply bool_decide_eq_false. }
  cbn [updateMapLayerOrder firstMismatch]. rewrite Hmis. cbn [negb].
  cbn [Collection.removeAt lookup list_lookup delete list_delete findIndex].
  rewrite Hmis.
  change (Collection.insertAt _ layer []) with [layer].
  by rewrite IH.
Qed.

(** C5, as the claim has it, fails: with the layers [A; C] in the collection
    and [A] alone wanted, the two sequences are no permutations of one another
    and [updateMapLayerOrder] returns normally. *)
Lemma updateMapLayerOrder_returns_on_non_permutation :
  let objs := objects (Sample.engine ["A"; "C"]) in
  ~ Permutation (ids_of objs [0; 1]) [IdStr "A"] /\
  forall fuel,
    updateMapLayerOrder (S fuel) objs [0; 1] (getLayersIds objs [0; 1]) [IdStr "A"]
      = Ok ([0; 1], 0).
Proof.
  split.
  - intros Hperm. apply Permutation_length in Hperm. discriminate.
  - intros fuel. reflexivity.
Qed.

(** C5 (amended).  [updateMapLayerOrder] checks nothing about its two
    sequences: whenever [newLayerOrder] agrees with [oldLayerOrder] at every
    index of [newLayerOrder], it returns normally and leaves the collection as
    it is, whatever else [oldLayerOrder] holds. *)
Theorem updateMapLayerOrder_no_permutation_check fuel objs mapLayers oldLayerOrder newLayerOrder :
  (forall idx id, newLayerOrder !! idx = Some id ->
                  strict_eq (at_index oldLayerOrder idx) id = true) ->
  updateMapLayerOrder (S fuel) objs mapLayers oldLayerOrder newLayerOrder = Ok (mapLayers, 0).
Proof.
  intros Hagree. cbn [updateMapLayerOrder].
  assert (firstMismatch oldLayerOrder newLayerOrder 0 = None) as ->; [|done].
  apply firstMismatch_None. intros k id Hk. by apply Hagree.
Qed.

Lemma updateMapLayerOrder_no_permutation_check_witness :
  updateMapLayerOrder 1 (objects (Sample.engine ["A"; "C"])) [0; 1]
    [Raw (IdStr "A"); Raw (IdStr "C")] [IdStr "A"] = Ok ([0; 1], 0).
Proof.
  apply (updateMapLayerOrder_no_permutation_check 0
           (objects (Sample.engine ["A"; "C"])) [0; 1]
           [Raw (IdStr "A"); Raw (IdStr "C")] [IdStr "A"]).
  intros [|idx] id Hid; simpl in Hid; [|done].
  injection Hid as <-. reflexivity.
Defined.

(** ** The membership tests of [addLayers] and [removeLayers] *)

Lemma find_bool_decide_eq (x : Id) (l : list Id) :
  find (fun id => bool_decide (id = x)) l = if decide (x ∈ l) then Some x else None.
Proof.
  induction l as [|a l IH]; simpl.
  - destruct (decide (x ∈ [])) as [Hin|]; [by apply elem_of_nil in Hin|done].
  - case_bool_decide as Ha.
    + subst a. rewrite decide_True; [done|apply list_elem_of_here].
    + rewrite IH. destruct (decide (x ∈ l)) as [Hin|Hout].
      * rewrite decide_True; [done|by apply list_elem_of_further].
      * rewrite decide_False; [done|]. rewrite elem_of_cons. intros [->|?]; [by apply Ha|done].
Qed.

Lemma find_strict_eq (x : Id) (l : list IdOrArray) :
  find (fun layerId => strict_eq layerId x) l = if decide (Raw x ∈ l) then Some (Raw x) else None.
Proof.
  induction l as [|a l IH]; simpl.
  - destruct (decide (Raw x ∈ [])) as [Hin|]; [by apply elem_of_nil in Hin|done].
  - destruct (strict_eq a x) eqn:Ha.
    + destruct a as [i|]; [|done]. apply bool_decide_eq_true in Ha. subst i.
      rewrite decide_True; [done|apply list_elem_of_here].
    + rewrite IH. destruct (decide (Raw x ∈ l)) as [Hin|Hout].
      * rewrite decide_True; [done|by apply list_elem_of_further].
      * rewrite decide_False; [done|]. rewrite elem_of_cons. intros [<-|]; [|done].
        rewrite strict_eq_Raw in Ha. by apply bool_decide_eq_false in Ha.
Qed.

Lemma found_truthy_find (x : Id) (l : list Id) :
  found_truthy (find (fun id => bool_decide (id = x)) l) = truthy x && bool_decide (x ∈ l).
Proof.
  rewrite find_bool_decide_eq. destruct (decide (x ∈ l)); simpl.
  - rewrite bool_decide_eq_true_2 by done. by rewrite andb_true_r.
  - rewrite bool_decide_eq_false_2 by done. by rewrite andb_false_r.
Qed.

Lemma found_truthy_entry_find (x : Id) (l : list IdOrArray) :
  found_truthy_entry (find (fun layerId => strict_eq layerId x) l)
  = truthy x && bool_decide (Raw x ∈ l).
Proof.
  rewrite find_strict_eq. destruct (decide (Raw x ∈ l)); simpl.
  - rewrite bool_decide_eq_true_2 by done. by rewrite andb_true_r.
  - rewrite bool_decide_eq_false_2 by done. by rewrite andb_false_r.
Qed.

Lemma addLayers_test objs mapLayers newLayer currentLayersIds :
  addLayers objs mapLayers newLayer currentLayersIds
  = if truthy (get_id objs newLayer) && bool_decide (Raw (get_id objs newLayer) ∈ currentLayersIds)
    then mapLayers else mapLayers ++ [newLayer].
Proof.
  unfold addLayers. rewrite found_truthy_entry_find.
  by destruct (truthy _ && _).
Qed.

Lemma layersToRemove_test objs existingMapLayers updatedLayersIds idx0 idx :
  idx ∈ layersToRemove objs existingMapLayers updatedLayersIds idx0 <->
  exists k mapLayer,
    idx = idx0 + k /\ existingMapLayers !! k = Some mapLayer /\
    truthy (get_id objs mapLayer) && bool_decide (get_id objs mapLayer ∈ updatedLayersIds)
      = false.
Proof.
  revert idx0. induction existingMapLayers as [|r l IH]; intros idx0; simpl.
  - split; [by intros ?%elem_of_nil|by intros (k & ? & _ & ? & _)].
  - rewrite elem_of_app, IH, found_truthy_find. split.
    + intros [Hhere|(k & mapLayer & -> & Hk & Htest)].
      * destruct (truthy (get_id objs r) && _) eqn:E; simpl in Hhere;
          [by apply elem_of_nil in Hhere|].
        apply list_elem_of_singleton in Hhere as ->. exists 0, r. by rewrite Nat.add_0_r.
      * exists (S k), mapLayer. split_and!; [lia|done|done].
    + intros ([|k] & mapLayer & -> & Hk & Htest); simpl in Hk.
      * injection Hk as ->. left. rewrite Htest. simpl. rewrite Nat.add_0_r.
        apply list_elem_of_here.
      * right. exists k, mapLayer. split_and!; [lia|done|done].
Qed.

(** C10.  A layer with a falsy id passes the addition test whatever ids the
    collection holds, and so is pushed again, and its index is scheduled for
    removal whatever ids are wanted; with a truthy id both tests are the
    membership tests they are meant to be. *)
Theorem falsy_id_defeats_membership_tests objs :
  (forall mapLayers newLayer currentLayersIds,
      truthy (get_id objs newLayer) = false ->
      addLayers objs mapLayers newLayer currentLayersIds = mapLayers ++ [newLayer]) /\
  (forall existingMapLayers updatedLayersIds idx mapLayer,
      existingMapLayers !! idx = Some mapLayer ->
      truthy (get_id objs mapLayer) = false ->
      idx ∈ layersToRemove objs existingMapLayers updatedLayersIds 0) /\
  (forall mapLayers newLayer currentLayersIds,
      truthy (get_id objs newLayer) = true ->
      addLayers objs mapLayers newLayer currentLayersIds
      = if decide (Raw (get_id objs newLayer) ∈ currentLayersIds)
        then mapLayers else mapLayers ++ [newLayer]) /\
  (forall existingMapLayers updatedLayersIds idx mapLayer,
      existingMapLayers !! idx = Some mapLayer ->
      truthy (get_id objs mapLayer) = true ->
      (idx ∈ layersToRemove objs existingMapLayers updatedLayersIds 0 <->
       get_id objs mapLayer ∉ updatedLayersIds)).
Proof.
  split_and!.
  - intros mapLayers newLayer currentLayersIds Hfalsy.
    by rewrite addLayers_test, Hfalsy.
  - intros existingMapLayers updatedLayersIds idx mapLayer Hidx Hfalsy.
    apply layersToRemove_test. exists idx, mapLayer. by rewrite Hfalsy.
  - intros mapLayers newLayer currentLayersIds Htruthy.
    rewrite addLayers_test, Htruthy. simpl.
    case_bool_decide; case_decide; done.
  - intros existingMapLayers updatedLayersIds idx mapLayer Hidx Htruthy.
    rewrite layersToRemove_test. split.
    + intros (k & mapLayer' & Hk & Hlook & Htest). simpl in Hk. subst k.
      assert (mapLayer' = mapLayer) as -> by congruence.
      rewrite Htruthy in Htest. simpl in Htest. by apply bool_decide_eq_false in Htest.
    + intros Hout. exists idx, mapLayer. rewrite Htruthy. simpl.
      split_and!; [done|done|]. by apply bool_decide_eq_false.
Qed.

Lemma falsy_id_defeats_membership_tests_witness :
  let objs := [mkOLLayer OLTile (IdNum 0) true None "http://tiles"] in
  addLayers objs [0] 0 (getLayersIds objs [0]) = [0; 0] /\
  0 ∈ layersToRemove objs [0] [IdNum 0] 0.
Proof.
  split.
  - apply (proj1 (falsy_id_defeats_membership_tests
                    [mkOLLayer OLTile (IdNum 0) true None "http://tiles"])).
    reflexivity.
  - apply (proj1 (proj2 (falsy_id_defeats_membership_tests
                           [mkOLLayer OLTile (IdNum 0) true None "http://tiles"]))
             [0] [IdNum 0] 0 0); reflexivity.
Defined.

(** ** The view *)

Section ViewFacts.

Context `{External}.

(** C6.  [syncOLMap] calls [setZoom] exactly when a zoom is wanted that
    differs from the view's, calls [setCenter] exactly when a center is wanted
    that differs from the view's center expressed in longitude and latitude,
    with the wanted center projected back; it touches neither the layers nor
    the layer objects, and with neither a center nor a zoom wanted it makes no
    call and leaves the map as it was. *)
Theorem syncOLMap_writes olMap mapConstants :
  let olView := getView olMap in
  let centerInLonLat := transform (getCenter olView) WEBMERCATOR WGS_84 in
  let olMap' := (syncOLMap olMap mapConstants).1 in
  let log := (syncOLMap olMap mapConstants).2 in
  (forall z, SetZoom z ∈ log <->
             mc_zoom mapConstants = Some z /\ z <> getZoom olView) /\
  (forall p, SetCenter p ∈ log <->
             exists c, mc_center mapConstants = Some c /\ c <> centerInLonLat /\
                       p = transform c WGS_84 WEBMERCATOR) /\
  (forall style temporary, GetOlLayerStyle style temporary ∉ log) /\
  (forall olLayer style, SetStyle olLayer style ∉ log) /\
  getZoom (getView olMap') = default (getZoom olView) (mc_zoom mapConstants) /\
  getCenter (getView olMap')
    = match mc_center mapConstants with
      | Some c => if decide (c = centerInLonLat) then getCenter olView
                  else transform c WGS_84 WEBMERCATOR
      | None => getCenter olView
      end /\
  getLayers olMap' = getLayers olMap /\
  objects olMap' = objects olMap /\
  syncOLMap olMap (mkMapConstants None None) = (olMap, []).
Proof.
  destruct olMap as [[center zoom] mapLayers objs].
  destruct mapConstants as [[c|] [z|]]; unfold syncOLMap; simpl;
    repeat case_bool_decide; simpl; repeat case_decide; try congruence;
    (split_and!; try done; intros; rewrite ?elem_of_cons, ?elem_of_nil;
     try (intros Hin; decompose [or] Hin; done);
     (split;
      [ intros Hin; decompose [or] Hin; try done; simplify_eq; eauto
      | intros Hin; decompose [ex and] Hin; simplify_eq; eauto ])).
Qed.

End ViewFacts.

(** ** Conversion of a layer *)

Section ConversionFacts.

Context `{External}.

Lemma createCorrespondingOLLayer_supported objs layer :
  supported (getType layer) = true ->
  exists made log,
    createCorrespondingOLLayer objs layer = Ok (length objs, objs ++ [made], log) /\
    ol_id made = getId layer /\
    ol_visible made = isVisible layer /\
    ol_class made = class_of (getType layer) /\
    (forall call, call ∈ log ->
       getType layer = VECTOR /\
       call = GetOlLayerStyle (getCurrentStyle layer) (isTemporary layer)).
Proof.
  unfold createCorrespondingOLLayer. destruct (getType layer) eqn:Htype; [..|done]; intros _.
  - eexists _, _. split_and!; [done..|]. by intros c ?%elem_of_nil.
  - eexists _, _. split_and!; [done..|]. by intros c ->%list_elem_of_singleton.
  - eexists _, _. split_and!; [done..|]. by intros c ?%elem_of_nil.
Qed.

(** C8.  For a layer of a type other than the three known ones,
    [createCorrespondingOLLayer] throws the error
    ['Cannot create corresponding OL layer'] (the spec's UnsupportedLayerType);
    for a layer of one of the three it returns a layer object that was not in
    the store before, of the class of that type, tagged with the id of the
    layer, and leaves the objects already in the store as they were. *)
Theorem createCorrespondingOLLayer_result objs layer :
  (forall tag, getType layer = UNKNOWN tag ->
     createCorrespondingOLLayer objs layer
       = Throw (Error "Cannot create corresponding OL layer")) /\
  (getType layer ∈ [TILE; VECTOR; GEOHASH_GRID] ->
     exists olLayer objs' log,
       createCorrespondingOLLayer objs layer = Ok (olLayer, objs', log) /\
       objs !! olLayer = None /\
       get_id objs' olLayer = getId layer /\
       (ol_class <$> objs' !! olLayer) = Some (class_of (getType layer)) /\
       (forall r o, objs !! r = Some o -> objs' !! r = Some o)).
Proof.
  split.
  - intros tag Htype. unfold createCorrespondingOLLayer. by rewrite Htype.
  - intros Hknown.
    assert (supported (getType layer) = true) as Hsup.
    { repeat (apply elem_of_cons in Hknown as [->|Hknown]; [done|]).
      by apply elem_of_nil in Hknown. }
    destruct (createCorrespondingOLLayer_supported objs layer Hsup)
      as (made & log & -> & Hid & _ & Hclass & _).
    exists (length objs), (objs ++ [made]), log. split_and!.
    + done.
    + by apply lookup_ge_None_2.
    + unfold get_id. rewrite lookup_app_r, Nat.sub_diag by lia. done.
    + rewrite lookup_app_r, Nat.sub_diag by lia. simpl. by rewrite Hclass.
    + intros r o Hr. by apply lookup_app_l_Some.
Qed.

End ConversionFacts.

Lemma createCorrespondingOLLayer_result_witness :
  createCorrespondingOLLayer (H:=Sample.externals) []
    (mkLayer (IdStr "A") (UNKNOWN "HEATMAP") true false "plain" "http://tiles")
    = Throw (Error "Cannot create corresponding OL layer") /\
  exists olLayer objs' log,
    createCorrespondingOLLayer (H:=Sample.externals) [] (Sample.vector "B")
      = Ok (olLayer, objs', log) /\
    (@nil OLLayer) !! olLayer = None /\
    get_id objs' olLayer = IdStr "B" /\
    (ol_class <$> objs' !! olLayer) = Some OLVector /\
    (forall r o, (@nil OLLayer) !! r = Some o -> objs' !! r = Some o).
Proof.
  split.
  - apply (proj1 (createCorrespondingOLLayer_result (H:=Sample.externals) [] _) "HEATMAP").
    reflexivity.
  - apply (proj2 (createCorrespondingOLLayer_result (H:=Sample.externals) []
                    (Sample.vector "B"))).
    simpl. apply list_elem_of_further, list_elem_of_here.
Defined.

(** ** Additions and updates *)

Lemma lookup_setVisible_field {B : Type} (field : OLLayer -> B) olLayer visible objs r :
  (forall o, field (mkOLLayer (ol_class o) (ol_id o) visible (ol_style o) (ol_source o))
             = field o) ->
  field <$> setVisible olLayer visible objs !! r = field <$> objs !! r.
Proof.
  intros Hfield. unfold setVisible. destruct (decide (olLayer = r)) as [->|Hne].
  - rewrite list_lookup_alter_eq. destruct (objs !! r); simpl; [|done]. by rewrite Hfield.
  - by rewrite list_lookup_alter_ne.
Qed.

Lemma lookup_setStyle_field {B : Type} (field : OLLayer -> B) olLayer style objs r :
  (forall o, field (mkOLLayer (ol_class o) (ol_id o) (ol_visible o) (Some style) (ol_source o))
             = field o) ->
  field <$> setStyle olLayer style objs !! r = field <$> objs !! r.
Proof.
  intros Hfield. unfold setStyle. destruct (decide (olLayer = r)) as [->|Hne].
  - rewrite list_lookup_alter_eq. destruct (objs !! r); simpl; [|done]. by rewrite Hfield.
  - by rewrite list_lookup_alter_ne.
Qed.

Lemma get_id_field objs objs' :
  (forall r, ol_id <$> objs' !! r = ol_id <$> objs !! r) ->
  forall r, get_id objs' r = get_id objs r.
Proof.
  intros Hsame r. unfold get_id. specialize (Hsame r). revert Hsame.
  destruct (objs' !! r), (objs !! r); simpl; congruence.
Qed.

Section UpdateFacts.

Context `{External}.

Lemma addAndUpdate_step layersIds olMap log layer olLayer :
  exists olMap' step,
    addAndUpdate layersIds (olMap, log) (layer, olLayer) = (olMap', log ++ step) /\
    getView olMap' = getView olMap /\
    getLayers olMap' = addLayers (objects olMap) (getLayers olMap) olLayer layersIds /\
    (forall r, ol_id <$> objects olMap' !! r = ol_id <$> objects olMap !! r) /\
    (forall r, r <> olLayer \/ getType layer <> VECTOR ->
               ol_style <$> objects olMap' !! r = ol_style <$> objects olMap !! r) /\
    (ol_visible <$> objects olMap' !! olLayer
       = (fun _ => isVisible layer) <$> objects olMap !! olLayer) /\
    (forall c, c ∈ step -> restyling layer olLayer c).
Proof.
  unfold addAndUpdate, updateFillAndOutlineStyle.
  assert (forall objs,
            ol_visible <$> setVisible olLayer (isVisible layer) objs !! olLayer
            = (fun _ => isVisible layer) <$> objs !! olLayer) as Hvis.
  { intros objs. unfold setVisible. rewrite list_lookup_alter_eq.
    by destruct (objs !! olLayer). }
  case_bool_decide as Htype; [destruct (has_setStyle _ olLayer) eqn:Hset|].
  - eexists _, _. split; [done|]. simpl. split_and!; [done|done|..].
    + intros r. by rewrite lookup_setStyle_field, lookup_setVisible_field.
    + intros r [Hr|Hr]; [|done]. unfold setStyle.
      rewrite list_lookup_alter_ne by done. by rewrite lookup_setVisible_field.
    + rewrite lookup_setStyle_field by done. by apply Hvis.
    + intros c Hc. split; [done|].
      apply elem_of_cons in Hc as [->|Hc]; [by left|].
      apply list_elem_of_singleton in Hc as ->. by right.
  - eexists _, _. split; [done|]. simpl. split_and!; [done|done|..].
    + intros r. by rewrite lookup_setVisible_field.
    + intros r _. by rewrite lookup_setVisible_field.
    + by apply Hvis.
    + intros c Hc. split; [done|].
      apply list_elem_of_singleton in Hc as ->. by left.
  - exists (mkOLMap (getView olMap)
                    (addLayers (objects olMap) (getLayers olMap) olLayer layersIds)
                    (setVisible olLayer (isVisible layer) (objects olMap))), [].
    simpl. split_and!; [done|done|done|..].
    + intros r. by rewrite lookup_setVisible_field.
    + intros r _. by rewrite lookup_setVisible_field.
    + by apply Hvis.
    + by intros c ?%elem_of_nil.
Qed.

Lemma addsAndUpdates_inv olMap layersWithOl :
  exists olMap' log,
    addsAndUpdates olMap layersWithOl = (olMap', log) /\
    getView olMap' = getView olMap /\
    (forall r, ol_id <$> objects olMap' !! r = ol_id <$> objects olMap !! r) /\
    (forall r, (forall layer, (layer, r) ∈ layersWithOl -> getType layer <> VECTOR) ->
               ol_style <$> objects olMap' !! r = ol_style <$> objects olMap !! r) /\
    (forall c, c ∈ log ->
               exists layer olLayer, (layer, olLayer) ∈ layersWithOl /\ restyling layer olLayer c) /\
    ((forall layer olLayer,
         (layer, olLayer) ∈ layersWithOl ->
         truthy (get_id (objects olMap) olLayer)
         && bool_decide (Raw (get_id (objects olMap) olLayer)
                           ∈ getLayersIds (objects olMap) (getLayers olMap)) = true) ->
     getLayers olMap' = getLayers olMap).
Proof.
  unfold addsAndUpdates.
  induction layersWithOl as [|[layer olLayer] l IH] using rev_ind.
  - exists olMap, []. split_and!; [done..| |done]. by intros c ?%elem_of_nil.
  - destruct IH as (olMap1 & log1 & Hrun & Hview & Hids & Hstyles & Hlog & Hsame).
    rewrite foldl_snoc, Hrun.
    destruct (addAndUpdate_step (getLayersIds (objects olMap) (getLayers olMap))
                olMap1 log1 layer olLayer)
      as (olMap2 & step & -> & Hview2 & Hadd & Hids2 & Hstyles2 & _ & Hstep).
    exists olMap2, (log1 ++ step). split_and!.
    + done.
    + congruence.
    + intros r. by rewrite Hids2, Hids.
    + intros r Hr. rewrite Hstyles2, Hstyles.
      * done.
      * intros layer' Hin. apply Hr. apply elem_of_app. by left.
      * destruct (decide (r = olLayer)) as [->|Hne]; [|by left].
        right. apply Hr. apply elem_of_app. right. apply list_elem_of_here.
    + intros c Hc. apply elem_of_app in Hc as [Hc|Hc].
      * destruct (Hlog c Hc) as (layer' & olLayer' & Hin & Hre).
        exists layer', olLayer'. split; [|done]. apply elem_of_app. by left.
      * exists layer, olLayer. split; [|by apply Hstep].
        apply elem_of_app. right. apply list_elem_of_here.
    + intros Hpresent. rewrite Hadd, addLayers_test, (get_id_field _ _ Hids).
      rewrite (Hpresent layer olLayer) by (apply elem_of_app; right; apply list_elem_of_here).
      apply Hsame. intros layer' olLayer' Hin. apply (Hpresent layer').
      apply elem_of_app. by left.
Qed.

(** C9.  In the loop of additions and updates of a pass, every call to the
    style resolver and every call to a style setter is made for a layer of
    type VECTOR, with the style and the temporary flag of that layer; a layer
    object paired with no VECTOR layer keeps the style it had; the turn of the
    loop for a layer of another type adds the layer object where it has to,
    sets its visibility and makes no call.  The loop throws nothing. *)
Theorem style_only_for_vector olMap layersWithOl :
  let olMap' := (addsAndUpdates olMap layersWithOl).1 in
  let log := (addsAndUpdates olMap layersWithOl).2 in
  (forall style temporary,
      GetOlLayerStyle style temporary ∈ log ->
      exists layer olLayer,
        (layer, olLayer) ∈ layersWithOl /\ getType layer = VECTOR /\
        style = getCurrentStyle layer /\ temporary = isTemporary layer) /\
  (forall olLayer style,
      SetStyle olLayer style ∈ log ->
      exists layer, (layer, olLayer) ∈ layersWithOl /\ getType layer = VECTOR) /\
  (forall olLayer,
      (forall layer, (layer, olLayer) ∈ layersWithOl -> getType layer <> VECTOR) ->
      ol_style <$> objects olMap' !! olLayer = ol_style <$> objects olMap !! olLayer) /\
  (forall layersIds olMap0 log0 layer olLayer,
      getType layer <> VECTOR ->
      addAndUpdate layersIds (olMap0, log0) (layer, olLayer)
      = (mkOLMap (getView olMap0)
                 (addLayers (objects olMap0) (getLayers olMap0) olLayer layersIds)
                 (setVisible olLayer (isVisible layer) (objects olMap0)),
         log0)).
Proof.
  destruct (addsAndUpdates_inv olMap layersWithOl)
    as (olMap' & log & -> & _ & _ & Hstyles & Hlog & _). simpl.
  split_and!.
  - intros style temporary Hc.
    destruct (Hlog _ Hc) as (layer & olLayer & Hin & Htype & [Hcall|Hcall]); [|done].
    injection Hcall as -> ->. by exists layer, olLayer.
  - intros olLayer style Hc.
    destruct (Hlog _ Hc) as (layer & olLayer' & Hin & Htype & [Hcall|Hcall]); [done|].
    injection Hcall as -> _. by exists layer.
  - done.
  - intros layersIds olMap0 log0 layer olLayer Htype. unfold addAndUpdate.
    rewrite bool_decide_eq_false_2 by done. by rewrite app_nil_r.
Qed.

End UpdateFacts.

Lemma style_only_for_vector_witness :
  let olMap := Sample.engine ["A"] in
  let layersWithOl := [(Sample.tile "A", 0)] in
  ol_style <$> objects (addsAndUpdates (H:=Sample.externals) olMap layersWithOl).1 !! 0
  = ol_style <$> objects olMap !! 0.
Proof.
  apply (proj1 (proj2 (proj2 (style_only_for_vector (H:=Sample.externals)
                                (Sample.engine ["A"]) [(Sample.tile "A", 0)]))) 0).
  intros layer Hin. apply list_elem_of_singleton in Hin. injection Hin as ->. discriminate.
Defined.

(** ** Pairing layers with layer objects *)

Lemma find_by_id objs mapLayers id :
  match find (fun olLayer => bool_decide (get_id objs olLayer = id)) mapLayers with
  | Some olLayer => olLayer ∈ mapLayers /\ get_id objs olLayer = id
  | None => id ∉ ids_of objs mapLayers
  end.
Proof.
  induction mapLayers as [|r l IH]; simpl.
  - apply not_elem_of_nil.
  - case_bool_decide as Hr.
    + split; [apply list_elem_of_here|done].
    + destruct (find _ l) as [olLayer|].
      * destruct IH as [Hin Hid]. split; [by apply list_elem_of_further|done].
      * rewrite not_elem_of_cons. split; [congruence|done].
Qed.

Lemma with_objects_same olMap : with_objects (objects olMap) olMap = olMap.
Proof. by destruct olMap. Qed.

Lemma ids_of_grown objs created mapLayers :
  Forall (fun r => r < length objs) mapLayers ->
  ids_of (objs ++ created) mapLayers = ids_of objs mapLayers.
Proof.
  unfold ids_of. induction 1 as [|r l Hr _ IH]; simpl; [done|].
  rewrite IH. f_equal. unfold get_id. by rewrite lookup_app_l.
Qed.

Section PairingFacts.

Context `{External}.

Lemma syncLayerInitialization_present olMap layerList :
  Forall (fun layer => getId layer ∈ ids_of (objects olMap) (getLayers olMap)) layerList ->
  exists layersWithOl,
    syncLayerInitialization olMap layerList = Ok (layersWithOl, olMap, []) /\
    map fst layersWithOl = layerList /\
    (forall layer olLayer,
        (layer, olLayer) ∈ layersWithOl ->
        olLayer ∈ getLayers olMap /\ get_id (objects olMap) olLayer = getId layer).
Proof.
  induction 1 as [|layer rest Hlayer _ (tuples & IHrun & IHfst & IHin)]; simpl.
  - exists []. split_and!; [done..|]. by intros ? ? ?%elem_of_nil.
  - pose proof (find_by_id (objects olMap) (getLayers olMap) (getId layer)) as Hfind.
    destruct (find _ (getLayers olMap)) as [olLayer|]; [|done].
    rewrite with_objects_same, IHrun.
    exists ((layer, olLayer) :: tuples). split_and!; [done|by simpl; f_equal|].
    intros layer' olLayer' [Heq|Hin]%elem_of_cons; [|by apply IHin].
    by injection Heq as -> ->.
Qed.

Lemma syncLayerInitialization_spec layerList :
  forall olMap,
    Forall (fun r => r < length (objects olMap)) (getLayers olMap) ->
    Forall (fun layer => getId layer ∈ ids_of (objects olMap) (getLayers olMap) \/
                         supported (getType layer) = true) layerList ->
    exists layersWithOl created log,
      syncLayerInitialization olMap layerList
        = Ok (layersWithOl, with_objects (objects olMap ++ created) olMap, log) /\
      map fst layersWithOl = layerList /\
      (forall layer olLayer,
          (layer, olLayer) ∈ layersWithOl ->
          get_id (objects olMap ++ created) olLayer = getId layer /\
          if decide (getId layer ∈ ids_of (objects olMap) (getLayers olMap))
          then olLayer ∈ getLayers olMap
          else length (objects olMap) <= olLayer).
Proof.
  induction layerList as [|layer rest IH]; intros olMap Hwf Hcan.
  - exists [], [], []. simpl. rewrite app_nil_r, with_objects_same.
    split_and!; [done..|]. by intros ? ? ?%elem_of_nil.
  - apply Forall_cons in Hcan as [Hlayer Hrest]. simpl.
    pose proof (find_by_id (objects olMap) (getLayers olMap) (getId layer)) as Hfind.
    destruct (find _ (getLayers olMap)) as [olLayer|].
    + destruct Hfind as [Hin Hid]. rewrite with_objects_same.
      destruct (IH olMap Hwf Hrest) as (tuples & created & log & -> & Hfst & Hpairs).
      exists ((layer, olLayer) :: tuples), created, log.
      split_and!; [done|by simpl; f_equal|].
      intros layer' olLayer' [Heq|Hin']%elem_of_cons; [|by apply Hpairs].
      injection Heq as -> ->. split.
      * unfold get_id in *. rewrite lookup_app_l; [done|].
        by apply (proj1 (Forall_forall _ _) Hwf).
      * rewrite decide_True; [done|]. rewrite <- Hid. unfold ids_of.
        apply list_elem_of_fmap. by exists olLayer.
    + destruct Hlayer as [Hpresent|Hsup]; [done|].
      destruct (createCorrespondingOLLayer_supported (objects olMap) layer Hsup)
        as (made & log & -> & Hid & _ & _ & _).
      set (olMap1 := with_objects (objects olMap ++ [made]) olMap).
      assert (Forall (fun r => r < length (objects olMap1)) (getLayers olMap1)) as Hwf1.
      { simpl. eapply Forall_impl; [exact Hwf|]. intros r Hr. rewrite length_app. simpl in *. lia. }
      assert (ids_of (objects olMap1) (getLayers olMap1)
              = ids_of (objects olMap) (getLayers olMap)) as Hids1.
      { simpl. by apply ids_of_grown. }
      destruct (IH olMap1) as (tuples & created & log' & -> & Hfst & Hpairs).
      { done. }
      { by rewrite Hids1. }
      exists ((layer, length (objects olMap)) :: tuples), (made :: created), (log ++ log').
      assert (objects olMap1 ++ created = objects olMap ++ made :: created) as Hobjs.
      { simpl. by rewrite <- app_assoc. }
      split_and!.
      * unfold olMap1, with_objects. simpl. by rewrite <- app_assoc.
      * by simpl; f_equal.
      * intros layer' olLayer' [Heq|Hin']%elem_of_cons.
        -- injection Heq as -> ->. split.
           ++ unfold get_id. rewrite lookup_app_r, Nat.sub_diag by lia. done.
           ++ by rewrite decide_False.
        -- destruct (Hpairs _ _ Hin') as [Hid' Hwhere]. rewrite Hobjs in Hid'.
           split; [done|]. rewrite Hids1 in Hwhere.
           destruct (decide (getId layer' ∈ _)); [done|].
           simpl in Hwhere. rewrite length_app in Hwhere. lia.
Qed.

(** C7.  [syncLayerInitialization] returns one pair per layer, in the order
    of the layer list; a layer whose id some layer object of the collection
    carries is paired with an object of the collection that carries it, the
    others with an object made in this call; the collection and the view stay
    as they were and the objects already in the store are not touched. *)
Theorem syncLayerInitialization_reuses olMap layerList :
  Forall (fun r => r < length (objects olMap)) (getLayers olMap) ->
  Forall (fun layer => getId layer ∈ ids_of (objects olMap) (getLayers olMap) \/
                       supported (getType layer) = true) layerList ->
  exists layersWithOl olMap' log,
    syncLayerInitialization olMap layerList = Ok (layersWithOl, olMap', log) /\
    map fst layersWithOl = layerList /\
    getLayers olMap' = getLayers olMap /\
    getView olMap' = getView olMap /\
    (forall r o, objects olMap !! r = Some o -> objects olMap' !! r = Some o) /\
    (forall layer olLayer,
        (layer, olLayer) ∈ layersWithOl ->
        getId layer ∈ ids_of (objects olMap) (getLayers olMap) ->
        olLayer ∈ getLayers olMap /\ get_id (objects olMap) olLayer = getId layer) /\
    (forall layer olLayer,
        (layer, olLayer) ∈ layersWithOl ->
        getId layer ∉ ids_of (objects olMap) (getLayers olMap) ->
        objects olMap !! olLayer = None /\ get_id (objects olMap') olLayer = getId layer).
Proof.
  intros Hwf Hcan.
  destruct (syncLayerInitialization_spec layerList olMap Hwf Hcan)
    as (tuples & created & log & -> & Hfst & Hpairs).
  eexists _, _, _. split; [done|]. simpl. split_and!; [done..| | |].
  - intros r o Hr. by apply lookup_app_l_Some.
  - intros layer olLayer Hin Hpresent.
    destruct (Hpairs _ _ Hin) as [Hid Hwhere]. rewrite decide_True in Hwhere by done.
    split; [done|]. rewrite <- Hid. unfold get_id. rewrite lookup_app_l; [done|].
    by apply (proj1 (Forall_forall _ _) Hwf).
  - intros layer olLayer Hin Habsent.
    destruct (Hpairs _ _ Hin) as [Hid Hwhere]. rewrite decide_False in Hwhere by done.
    split; [by apply lookup_ge_None_2|done].
Qed.

End PairingFacts.

Lemma syncLayerInitialization_reuses_witness :
  exists layersWithOl olMap' log,
    syncLayerInitialization (H:=Sample.externals) (Sample.engine ["A"; "B"])
      [Sample.vector "B"; Sample.tile "C"] = Ok (layersWithOl, olMap', log) /\
    map fst layersWithOl = [Sample.vector "B"; Sample.tile "C"] /\
    getLayers olMap' = [0; 1] /\
    getView olMap' = Sample.origin /\
    (forall r o, objects (Sample.engine ["A"; "B"]) !! r = Some o ->
                 objects olMap' !! r = Some o) /\
    (forall layer olLayer,
        (layer, olLayer) ∈ layersWithOl ->
        getId layer ∈ [IdStr "A"; IdStr "B"] ->
        olLayer ∈ [0; 1] /\ get_id (objects (Sample.engine ["A"; "B"])) olLayer = getId layer) /\
    (forall layer olLayer,
        (layer, olLayer) ∈ layersWithOl ->
        getId layer ∉ [IdStr "A"; IdStr "B"] ->
        objects (Sample.engine ["A"; "B"]) !! olLayer = None /\
        get_id (objects olMap') olLayer = getId layer).
Proof.
  apply (syncLayerInitialization_reuses (H:=Sample.externals) (Sample.engine ["A"; "B"])
           [Sample.vector "B"; Sample.tile "C"]).
  - repeat constructor.
  - apply Forall_cons_2; [|apply Forall_cons_2; [|apply Forall_nil_2]].
    + left. apply list_elem_of_further, list_elem_of_here.
    + right. reflexivity.
Defined.

(** ** A full pass *)

Lemma getLayersIds_entries objs mapLayers :
  getLayersIds objs mapLayers = map entry_of (ids_of objs mapLayers).
Proof. unfold getLayersIds, ids_of. by rewrite map_map. Qed.

Lemma strict_eq_entry a b :
  strict_eq (entry_of a) b = true -> truthy a = true /\ a = b.
Proof.
  unfold entry_of. destruct (truthy a); [|done].
  rewrite strict_eq_Raw. by intros ?%bool_decide_eq_true.
Qed.

(** When [updateMapLayerOrder] returns, its last activation found no
    mismatch. *)
Lemma updateMapLayerOrder_settled fuel :
  forall objs mapLayers newLayerOrder final steps,
    updateMapLayerOrder fuel objs mapLayers (getLayersIds objs mapLayers) newLayerOrder
      = Ok (final, steps) ->
    firstMismatch (getLayersIds objs final) newLayerOrder 0 = None.
Proof.
  induction fuel as [|fuel IH]; intros objs mapLayers newLayerOrder final steps Hrun;
    [done|].
  cbn [updateMapLayerOrder] in Hrun.
  destruct (firstMismatch (getLayersIds objs mapLayers) newLayerOrder 0) as [idx|] eqn:Hscan.
  - unfold Collection.removeAt in Hrun.
    destruct (mapLayers !! idx) as [layerToMove|]; [|done].
    destruct (updateMapLayerOrder fuel _ _ _ _) as [[final' steps']|] eqn:Hrec; [|done].
    injection Hrun as <- _. by eapply IH.
  - by injection Hrun as <- _.
Qed.

Lemma settled_ids objs mapLayers newLayerOrder :
  firstMismatch (getLayersIds objs mapLayers) newLayerOrder 0 = None ->
  length (ids_of objs mapLayers) = length newLayerOrder ->
  ids_of objs mapLayers = newLayerOrder /\
  Forall (fun id => truthy id = true) newLayerOrder.
Proof.
  rewrite firstMismatch_None, getLayersIds_entries. intros Hscan Hlen.
  assert (forall k a b, ids_of objs mapLayers !! k = Some a -> newLayerOrder !! k = Some b ->
                        truthy a = true /\ a = b) as Hat.
  { intros k a b Ha Hb. apply strict_eq_entry. rewrite <- (Hscan k b Hb). simpl.
    unfold at_index. change (map entry_of ?l) with (entry_of <$> l).
    by rewrite list_lookup_fmap, Ha. }
  split.
  - apply (list_eq_same_length _ _ (length newLayerOrder)); [done..|].
    intros k a b _ Ha Hb. by destruct (Hat k a b Ha Hb).
  - apply Forall_lookup. intros k b Hb.
    destruct (lookup_lt_is_Some_2 (ids_of objs mapLayers) k) as [a Ha].
    { rewrite Hlen. by eapply lookup_lt_Some. }
    by destruct (Hat k a b Ha Hb) as [? <-].
Qed.

Lemma layersToRemove_none objs existingMapLayers updatedLayersIds idx :
  Forall (fun r => truthy (get_id objs r) && bool_decide (get_id objs r ∈ updatedLayersIds)
                   = true) existingMapLayers ->
  layersToRemove objs existingMapLayers updatedLayersIds idx = [].
Proof.
  intros Hall. revert idx. induction Hall as [|r l Hr _ IH]; intros idx; simpl; [done|].
  by rewrite found_truthy_find, Hr, IH.
Qed.

Section PassFacts.

Context `{External}.

Lemma syncOLMap_frame olMap mapConstants :
  getLayers (syncOLMap olMap mapConstants).1 = getLayers olMap /\
  objects (syncOLMap olMap mapConstants).1 = objects olMap.
Proof.
  unfold syncOLMap. destruct (mc_zoom mapConstants), (mc_center mapConstants);
    repeat case_bool_decide; done.
Qed.

Lemma syncLayerInitialization_fst layerList :
  forall olMap layersWithOl olMap' log,
    syncLayerInitialization olMap layerList = Ok (layersWithOl, olMap', log) ->
    map fst layersWithOl = layerList.
Proof.
  induction layerList as [|layer rest IH]; intros olMap tuples olMap' log; simpl.
  - by intros [= <- _ _].
  - destruct (match find _ (getLayers olMap) with Some _ => _ | None => _ end)
      as [[[olLayer objs] log1]|]; [|done].
    destruct (syncLayerInitialization _ rest) as [[[tuples' olMap2] log2]|] eqn:Hrest; [|done].
    intros [= <- _ _]. simpl. f_equal. by eapply IH.
Qed.

(** With the layers of the wanted ids, all truthy and distinct, already in the
    collection, a pass adds nothing, removes nothing and reorders. *)
Lemma syncOLState_reorders fuel olMap mapConstants layerList :
  Permutation (ids_of (objects olMap) (getLayers olMap)) (map getId layerList) ->
  NoDup (map getId layerList) ->
  Forall (fun id => truthy id = true) (map getId layerList) ->
  2 ^ (length layerList - 1) <= fuel ->
  exists olMap' log,
    syncOLState fuel olMap mapConstants layerList = Ok (olMap', log) /\
    ids_of (objects olMap') (getLayers olMap') = map getId layerList.
Proof.
  intros Hperm Hdistinct Htruthy Hfuel. unfold syncOLState.
  destruct (syncOLMap_frame olMap mapConstants) as [Hlayers1 Hobjs1].
  destruct (syncOLMap olMap mapConstants) as [olMap1 log1]. simpl in Hlayers1, Hobjs1.
  rewrite <- Hlayers1, <- Hobjs1 in Hperm. clear Hlayers1 Hobjs1.
  destruct (syncLayerInitialization_present olMap1 layerList)
    as (tuples & -> & Hfst & Hpairs).
  { apply Forall_forall. intros layer Hin. rewrite Hperm.
    apply list_elem_of_fmap. by exists layer. }
  unfold syncOLState_result.
  destruct (addsAndUpdates_inv olMap1 tuples)
    as (olMap2 & log2 & -> & _ & Hids & _ & _ & Hsame).
  assert (forall r, r ∈ getLayers olMap1 ->
            truthy (get_id (objects olMap1) r)
            && bool_decide (get_id (objects olMap1) r ∈ map getId layerList) = true)
    as Hwanted.
  { intros r Hr.
    assert (get_id (objects olMap1) r ∈ map getId layerList) as Hin.
    { rewrite <- Hperm. unfold ids_of. apply list_elem_of_fmap. by exists r. }
    rewrite (proj1 (Forall_forall _ _) Htruthy _ Hin). simpl.
    by apply bool_decide_eq_true. }
  assert (getLayers olMap2 = getLayers olMap1) as Hlayers.
  { apply Hsame. intros layer olLayer Hin. destruct (Hpairs _ _ Hin) as [Hr Hid].
    destruct (andb_prop _ _ (Hwanted _ Hr)) as [-> _]. simpl.
    apply bool_decide_eq_true. rewrite getLayersIds_entries.
    apply list_elem_of_fmap. exists (get_id (objects olMap1) olLayer). split.
    - unfold entry_of. by destruct (andb_prop _ _ (Hwanted _ Hr)) as [-> _].
    - unfold ids_of. apply list_elem_of_fmap. by exists olLayer. }
  pose proof (get_id_field _ _ Hids) as Hget.
  assert (map (fun tuple : Layer * nat => getId tuple.1) tuples = map getId layerList) as Hnew.
  { by rewrite <- Hfst, map_map. }
  rewrite Hnew. simpl.
  assert (removeLayers (objects olMap2) (getLayers olMap2) (map getId layerList)
          = getLayers olMap1) as ->.
  { unfold removeLayers. rewrite layersToRemove_none; [by rewrite Hlayers|].
    rewrite Hlayers. apply Forall_forall. intros r Hr. rewrite Hget. by apply Hwanted. }
  assert (ids_of (objects olMap2) (getLayers olMap1)
          = ids_of (objects olMap1) (getLayers olMap1)) as Hids2.
  { unfold ids_of. apply map_ext. intros r. apply Hget. }
  destruct (reorder_converges (objects olMap2) (map getId layerList) Hdistinct Htruthy
              (2 ^ (length layerList - 1) - 1) (getLayers olMap1) fuel)
    as (final & steps & -> & _ & Hfinal).
  { by rewrite Hids2. }
  { rewrite length_map. lia. }
  { assert (2 ^ (length layerList - 1) <> 0) by (apply Nat.pow_nonzero; lia). lia. }
  eexists _, _. split; [done|]. done.
Qed.

End PassFacts.

Section PassTheorems.

Context `{External}.

(** C3.  Let a pass over a layer list have returned and left in the
    collection the layers of exactly the ids of that list.  Then for every
    permutation of the list, with distinct ids, the next pass returns, given
    room for [2 ^ (n - 1)] activations of the reordering on the call stack,
    and leaves the ids of the collection in the order of the permuted list. *)
Theorem syncOLState_order_correct
    fuel0 olMap0 mapConstants0 previous olMap log0 fuel mapConstants layerList :
  syncOLState fuel0 olMap0 mapConstants0 previous = Ok (olMap, log0) ->
  Permutation (ids_of (objects olMap) (getLayers olMap)) (map getId previous) ->
  Permutation (map getId layerList) (map getId previous) ->
  NoDup (map getId layerList) ->
  2 ^ (length layerList - 1) <= fuel ->
  exists olMap' log,
    syncOLState fuel olMap mapConstants layerList = Ok (olMap', log) /\
    ids_of (objects olMap') (getLayers olMap') = map getId layerList.
Proof.
  intros Hprevious Hholds Hperm Hdistinct Hfuel.
  assert (ids_of (objects olMap) (getLayers olMap) = map getId previous /\
          Forall (fun id => truthy id = true) (map getId previous)) as [Hids Htruthy].
  { unfold syncOLState in Hprevious.
    destruct (syncOLMap olMap0 mapConstants0) as [olMapA logA].
    destruct (syncLayerInitialization olMapA previous)
      as [[[tuples olMapB] logB]|] eqn:Hinit; [|done].
    apply syncLayerInitialization_fst in Hinit.
    destruct (syncOLState_result fuel0 olMapB tuples) as [[olMapC logC]|] eqn:Hresult; [|done].
    injection Hprevious as -> _.
    unfold syncOLState_result in Hresult.
    destruct (addsAndUpdates olMapB tuples) as [olMap1 log1].
    destruct (updateMapLayerOrder fuel0 _ _ _ _) as [[final steps]|] eqn:Hrun; [|done].
    injection Hresult as <- _.
    apply updateMapLayerOrder_settled in Hrun. simpl in *.
    assert (map (fun tuple : Layer * nat => getId tuple.1) tuples = map getId previous) as Hnew.
    { by rewrite <- Hinit, map_map. }
    rewrite Hnew in Hrun. apply settled_ids; [done|]. by apply Permutation_length. }
  apply syncOLState_reorders; [|done| |done].
  - by rewrite Hids, Hperm.
  - by rewrite Hperm.
Qed.

End PassTheorems.

Lemma syncOLState_order_correct_witness :
  exists olMap' log,
    syncOLState (H:=Sample.externals) 4 (Sample.engine ["A"; "B"]) Sample.noConstants
      [Sample.tile "B"; Sample.tile "A"] = Ok (olMap', log) /\
    ids_of (objects olMap') (getLayers olMap') = [IdStr "B"; IdStr "A"].
Proof.
  apply (syncOLState_order_correct (H:=Sample.externals)
           1 (Sample.engine []) Sample.noConstants [Sample.tile "A"; Sample.tile "B"]
           (Sample.engine ["A"; "B"]) [] 4 Sample.noConstants
           [Sample.tile "B"; Sample.tile "A"]).
  - reflexivity.
  - apply (bool_decide_unpack _). vm_compute. exact I.
  - apply (bool_decide_unpack _). vm_compute. exact I.
  - apply (bool_decide_unpack _). vm_compute. exact I.
  - simpl. lia.
Defined.

(** ** Removal of several layers in one pass *)

(** A relocation that puts the collection back as it was is repeated until
    the call stack is exhausted. *)
Lemma updateMapLayerOrder_stuck objs mapLayers newLayerOrder idx layerToMove :
  firstMismatch (getLayersIds objs mapLayers) newLayerOrder 0 = Some idx ->
  mapLayers !! idx = Some layerToMove ->
  Collection.insertAt
    (findIndex (fun id => strict_eq (at_index (getLayersIds objs mapLayers) idx) id)
               newLayerOrder)
    layerToMove (delete idx mapLayers) = mapLayers ->
  forall fuel,
    updateMapLayerOrder fuel objs mapLayers (getLayersIds objs mapLayers) newLayerOrder
      = Throw RangeError.
Proof.
  intros Hscan Hidx Hback fuel. induction fuel as [|fuel IH]; [done|].
  cbn [updateMapLayerOrder]. rewrite Hscan. unfold Collection.removeAt.
  rewrite Hidx, Hback. by rewrite IH.
Qed.

Section RemovalFacts.

Context `{External}.

(** C1, at two inputs where two layers have to go.  With [A; B; C] in the
    collection and [A] alone wanted, the indices 1 and 2 are scheduled; once
    index 1 is removed nothing is left at index 2, and the pass returns with
    [A; C].  With [A; B; C; D] in the collection and [C; D] wanted, the indices
    0 and 1 are scheduled; once index 0 is removed index 1 holds [C], which is
    wanted and goes, while [B] stays: the collection is [B; D], and the
    reordering that follows moves [B] in place until the call stack is
    exhausted. *)
Theorem removeLayers_shifted_indices :
  (forall fuel,
      syncOLState (S fuel) (Sample.engine ["A"; "B"; "C"]) Sample.noConstants
        [Sample.tile "A"]
      = Ok (mkOLMap Sample.origin [0; 2] (objects (Sample.engine ["A"; "B"; "C"])), [])) /\
  ids_of (objects (Sample.engine ["A"; "B"; "C"])) [0; 2] = [IdStr "A"; IdStr "C"] /\
  layersToRemove (objects (Sample.engine ["A"; "B"; "C"; "D"])) [0; 1; 2; 3]
    [IdStr "C"; IdStr "D"] 0 = [0; 1] /\
  removeLayers (objects (Sample.engine ["A"; "B"; "C"; "D"])) [0; 1; 2; 3]
    [IdStr "C"; IdStr "D"] = [1; 3] /\
  (forall fuel,
      syncOLState fuel (Sample.engine ["A"; "B"; "C"; "D"]) Sample.noConstants
        [Sample.tile "C"; Sample.tile "D"]
      = Throw RangeError).
Proof.
  split_and!; [by intros fuel|done|done|done|].
  intros fuel. unfold syncOLState, syncOLState_result.
  change (syncOLMap (Sample.engine ["A"; "B"; "C"; "D"]) Sample.noConstants)
    with (Sample.engine ["A"; "B"; "C"; "D"], @nil call).
  cbv iota beta.
  change (syncLayerInitialization (Sample.engine ["A"; "B"; "C"; "D"])
            [Sample.tile "C"; Sample.tile "D"])
    with (Ok ([(Sample.tile "C", 2); (Sample.tile "D", 3)],
              Sample.engine ["A"; "B"; "C"; "D"], @nil call)).
  cbv iota beta.
  change (addsAndUpdates (Sample.engine ["A"; "B"; "C"; "D"])
            [(Sample.tile "C", 2); (Sample.tile "D", 3)])
    with (Sample.engine ["A"; "B"; "C"; "D"], @nil call).
  cbv iota beta.
  change (with_layers _ (Sample.engine ["A"; "B"; "C"; "D"]))
    with (mkOLMap Sample.origin [1; 3] (objects (Sample.engine ["A"; "B"; "C"; "D"]))).
  cbn [objects getLayers map fst].
  by rewrite (updateMapLayerOrder_stuck _ [1; 3] _ 0 1).
Qed.

(** C4, at the first of these inputs: the first pass leaves [A; C] in the
    collection, the second pass, with the same layer list and constants,
    removes [C]. *)
Theorem syncOLState_twice_differs :
  let olMap0 := Sample.engine ["A"; "B"; "C"] in
  let olMap1 := mkOLMap Sample.origin [0; 2] (objects olMap0) in
  let olMap2 := mkOLMap Sample.origin [0] (objects olMap0) in
  (forall fuel,
      syncOLState (S fuel) olMap0 Sample.noConstants [Sample.tile "A"] = Ok (olMap1, []) /\
      syncOLState (S fuel) olMap1 Sample.noConstants [Sample.tile "A"] = Ok (olMap2, [])) /\
  observable olMap1 <> observable olMap2.
Proof.
  split; [by intros fuel|]. intros Heq. discriminate Heq.
Qed.

End RemovalFacts.

(** * Further properties of the pass *)

(** ** What the reordering keeps and what it reaches *)

Lemma insertAt_Permutation {A : Type} (index : Z) (x : A) (l : list A) :
  Permutation (Collection.insertAt index x l) (x :: l).
Proof.
  unfold Collection.insertAt.
  rewrite <- Permutation_middle. by rewrite take_drop.
Qed.

Lemma updateMapLayerOrder_permutes fuel :
  forall objs mapLayers oldLayerOrder newLayerOrder final steps,
    updateMapLayerOrder fuel objs mapLayers oldLayerOrder newLayerOrder = Ok (final, steps) ->
    Permutation final mapLayers.
Proof.
  induction fuel as [|fuel IH];
    intros objs mapLayers oldLayerOrder newLayerOrder final steps Hrun; [done|].
  cbn [updateMapLayerOrder] in Hrun.
  destruct (firstMismatch oldLayerOrder newLayerOrder 0) as [idx|].
  - unfold Collection.removeAt in Hrun.
    destruct (mapLayers !! idx) as [layerToMove|] eqn:Hidx; [|done].
    destruct (updateMapLayerOrder fuel _ _ _ _) as [[final' steps']|] eqn:Hrec; [|done].
    injection Hrun as <- _. rewrite (IH _ _ _ _ _ _ Hrec), insertAt_Permutation.
    symmetry. by apply delete_Permutation.
  - by injection Hrun as <- _.
Qed.

(** Whatever the two id sequences are, when [updateMapLayerOrder] returns the
    collection holds the layer objects it held, each as many times as before:
    a relocation never drops a layer and never doubles one. *)
Theorem updateMapLayerOrder_keeps_layers fuel objs mapLayers oldLayerOrder newLayerOrder
    final steps :
  updateMapLayerOrder fuel objs mapLayers oldLayerOrder newLayerOrder = Ok (final, steps) ->
  Permutation final mapLayers.
Proof. apply updateMapLayerOrder_permutes. Qed.

Lemma updateMapLayerOrder_keeps_layers_witness :
  Permutation [3; 0; 1; 2] [0; 1; 2; 3].
Proof.
  apply (updateMapLayerOrder_keeps_layers 8
           (objects (Sample.engine ["A"; "B"; "C"; "D"])) [0; 1; 2; 3]
           (getLayersIds (objects (Sample.engine ["A"; "B"; "C"; "D"])) [0; 1; 2; 3])
           [IdStr "D"; IdStr "A"; IdStr "B"; IdStr "C"] [3; 0; 1; 2] 7).
  reflexivity.
Defined.

(** When [updateMapLayerOrder] returns, the collection agrees with the wanted
    sequence at every index of that sequence: the layer there carries the
    wanted id, which is truthy; the one exception is a wanted id [undefined]
    at an index past the end of the collection. *)
Theorem updateMapLayerOrder_reaches_order fuel objs mapLayers newLayerOrder final steps :
  updateMapLayerOrder fuel objs mapLayers (getLayersIds objs mapLayers) newLayerOrder
    = Ok (final, steps) ->
  forall idx id,
    newLayerOrder !! idx = Some id ->
    (ids_of objs final !! idx = Some id /\ truthy id = true) \/
    (id = IdUndefined /\ length final <= idx).
Proof.
  intros Hrun idx id Hid.
  apply updateMapLayerOrder_settled in Hrun.
  rewrite firstMismatch_None, getLayersIds_entries in Hrun.
  specialize (Hrun idx id Hid). simpl in Hrun. unfold at_index in Hrun.
  change (map entry_of ?l) with (entry_of <$> l) in Hrun.
  rewrite list_lookup_fmap in Hrun.
  destruct (ids_of objs final !! idx) as [a|] eqn:Ha; simpl in Hrun.
  - left. by destruct (strict_eq_entry _ _ Hrun) as [? <-].
  - right. apply bool_decide_eq_true in Hrun.
    split; [done|]. apply lookup_ge_None_1 in Ha. unfold ids_of in Ha.
    by rewrite length_map in Ha.
Qed.

Lemma updateMapLayerOrder_reaches_order_witness :
  (ids_of (objects (Sample.engine ["A"; "B"; "C"; "D"])) [3; 0; 1; 2] !! 0
     = Some (IdStr "D") /\ truthy (IdStr "D") = true) \/
  (IdStr "D" = IdUndefined /\ length [3; 0; 1; 2] <= 0).
Proof.
  apply (updateMapLayerOrder_reaches_order 8
           (objects (Sample.engine ["A"; "B"; "C"; "D"])) [0; 1; 2; 3]
           [IdStr "D"; IdStr "A"; IdStr "B"; IdStr "C"] [3; 0; 1; 2] 7);
    reflexivity.
Defined.

(** ** What the removal keeps and what it removes *)

(** Whatever is scheduled, [removeLayers] only removes: what it returns is
    the collection with some layers left out, the others in their order. *)
Theorem removeLayers_sublist objs existingMapLayers updatedLayersIds :
  removeLayers objs existingMapLayers updatedLayersIds `sublist_of` existingMapLayers.
Proof.
  unfold removeLayers.
  generalize (layersToRemove objs existingMapLayers updatedLayersIds 0).
  intros indices. revert existingMapLayers.
  induction indices as [|layerIdx indices IH]; intros array; simpl; [done|].
  etrans; [apply IH|]. apply sublist_delete.
Qed.

Lemma layersToRemove_wanted objs existingMapLayers updatedLayersIds idx :
  layersToRemove objs existingMapLayers updatedLayersIds idx
  = match existingMapLayers with
    | [] => []
    | mapLayer :: rest =>
        (if wanted objs updatedLayersIds mapLayer then [] else [idx])
          ++ layersToRemove objs rest updatedLayersIds (S idx)
    end.
Proof.
  destruct existingMapLayers as [|mapLayer rest]; simpl; [done|].
  rewrite found_truthy_find. unfold wanted. by destruct (truthy _ && _).
Qed.

Lemma filter_all {A : Type} (f : A -> bool) (l : list A) :
  List.filter (fun x => negb (f x)) l = [] -> List.filter f l = l.
Proof.
  induction l as [|x l IH]; simpl; [done|].
  destruct (f x); simpl; [|done]. intros Hl. by rewrite IH.
Qed.

Lemma filter_none_Forall {A : Type} (f : A -> bool) (l : list A) :
  List.filter (fun x => negb (f x)) l = [] -> Forall (fun x => f x = true) l.
Proof.
  induction l as [|x l IH]; simpl; [done|].
  destruct (f x) eqn:Hx; simpl; [|done]. intros Hl. by constructor; [|apply IH].
Qed.

Lemma removeLayers_from objs updatedLayersIds existingMapLayers :
  forall before,
    length (List.filter (fun r => negb (wanted objs updatedLayersIds r)) existingMapLayers) <= 1 ->
    foldl (fun array layerIdx => (Collection.removeAt layerIdx array).2)
          (before ++ existingMapLayers)
          (layersToRemove objs existingMapLayers updatedLayersIds (length before))
    = before ++ List.filter (wanted objs updatedLayersIds) existingMapLayers.
Proof.
  induction existingMapLayers as [|mapLayer rest IH]; intros before Hone; [done|].
  rewrite layersToRemove_wanted. simpl in *.
  destruct (wanted objs updatedLayersIds mapLayer) eqn:Hw; simpl in *.
  - specialize (IH (before ++ [mapLayer]) Hone).
    rewrite length_app, <- app_assoc in IH. simpl in IH.
    replace (length before + 1) with (S (length before)) in IH by lia.
    by rewrite IH, <- app_assoc.
  - assert (List.filter (fun r => negb (wanted objs updatedLayersIds r)) rest = []) as Hnone.
    { destruct (List.filter _ rest); [done|simpl in Hone; lia]. }
    rewrite layersToRemove_none.
    + simpl. rewrite delete_take_drop, take_app_length, (filter_all _ _ Hnone).
      f_equal. rewrite drop_app_ge by lia.
      by replace (S (length before) - length before) with 1 by lia.
    + apply filter_none_Forall in Hnone. eapply Forall_impl; [exact Hnone|]. done.
Qed.

(** With at most one layer of the collection whose id is falsy or not wanted,
    [removeLayers] returns the layers with a truthy, wanted id, in their
    order. *)
Theorem removeLayers_at_most_one objs existingMapLayers updatedLayersIds :
  length (List.filter (fun r => negb (wanted objs updatedLayersIds r)) existingMapLayers) <= 1 ->
  removeLayers objs existingMapLayers updatedLayersIds
  = List.filter (wanted objs updatedLayersIds) existingMapLayers.
Proof.
  intros Hone. apply (removeLayers_from objs updatedLayersIds existingMapLayers [] Hone).
Qed.

Lemma removeLayers_at_most_one_witness :
  removeLayers (objects (Sample.engine ["A"; "B"; "C"])) [0; 1; 2] [IdStr "C"; IdStr "A"]
  = [0; 2].
Proof.
  apply (removeLayers_at_most_one (objects (Sample.engine ["A"; "B"; "C"])) [0; 1; 2]
           [IdStr "C"; IdStr "A"]).
  vm_compute. lia.
Defined.

(** ** A layer of a type that cannot be converted *)

Section ThrowFacts.

Context `{External}.

Lemma syncLayerInitialization_throws layerList :
  forall olMap,
    Forall (fun r => r < length (objects olMap)) (getLayers olMap) ->
    Exists (fun layer => (getId layer ∉ ids_of (objects olMap) (getLayers olMap)) /\
                         supported (getType layer) = false) layerList ->
    syncLayerInitialization olMap layerList
    = Throw (Error "Cannot create corresponding OL layer").
Proof.
  induction layerList as [|layer rest IH]; intros olMap Hwf Hbad;
    [by apply Exists_nil in Hbad|].
  simpl.
  pose proof (find_by_id (objects olMap) (getLayers olMap) (getId layer)) as Hfind.
  destruct (find _ (getLayers olMap)) as [olLayer|].
  - destruct Hfind as [Hin Hid]. rewrite with_objects_same.
    apply Exists_cons in Hbad as [[Habsent _]|Hbad].
    + exfalso. apply Habsent. rewrite <- Hid. unfold ids_of.
      apply list_elem_of_fmap. by exists olLayer.
    + by rewrite (IH olMap Hwf Hbad).
  - destruct (supported (getType layer)) eqn:Hsup.
    + destruct (createCorrespondingOLLayer_supported (objects olMap) layer Hsup)
        as (made & log & -> & _).
      apply Exists_cons in Hbad as [[_ Hno]|Hbad]; [congruence|].
      rewrite IH; [done|..]; simpl.
      * eapply Forall_impl; [exact Hwf|]. intros r Hr. rewrite length_app. simpl in *. lia.
      * by rewrite ids_of_grown.
    + unfold createCorrespondingOLLayer. by destruct (getType layer).
Qed.

(** A pass over a list that holds a layer of none of the three known types,
    with no layer object of its id in the collection, throws the error of
    the conversion, whatever the other layers, the constants and the room on
    the call stack are; a layer of such a type whose id a layer of the
    collection carries does not make the pass throw. *)
Theorem syncOLState_unknown_type_throws fuel olMap mapConstants layerList :
  Forall (fun r => r < length (objects olMap)) (getLayers olMap) ->
  Exists (fun layer => (getId layer ∉ ids_of (objects olMap) (getLayers olMap)) /\
                       supported (getType layer) = false) layerList ->
  syncOLState fuel olMap mapConstants layerList
  = Throw (Error "Cannot create corresponding OL layer").
Proof.
  intros Hwf Hbad. unfold syncOLState.
  destruct (syncOLMap_frame olMap mapConstants) as [Hlayers Hobjs].
  destruct (syncOLMap olMap mapConstants) as [olMap1 log1]. simpl in Hlayers, Hobjs.
  rewrite syncLayerInitialization_throws; [done|..]; by rewrite Hlayers, Hobjs.
Qed.

(** When the pairing returns, every pair holds a layer object that carries
    the id of its layer, so that layers of distinct ids are paired with
    distinct layer objects. *)
Theorem syncLayerInitialization_pairs_by_id olMap layerList layersWithOl olMap' log :
  Forall (fun r => r < length (objects olMap)) (getLayers olMap) ->
  syncLayerInitialization olMap layerList = Ok (layersWithOl, olMap', log) ->
  map (fun tuple => get_id (objects olMap') tuple.2) layersWithOl = map getId layerList /\
  (NoDup (map getId layerList) -> NoDup (map snd layersWithOl)).
Proof.
  intros Hwf Hrun.
  assert (Forall (fun layer => getId layer ∈ ids_of (objects olMap) (getLayers olMap) \/
                               supported (getType layer) = true) layerList) as Hcan.
  { apply Forall_forall. intros layer Hin.
    destruct (decide (getId layer ∈ ids_of (objects olMap) (getLayers olMap)));
      [by left|right].
    destruct (supported (getType layer)) eqn:Hsup; [done|].
    rewrite syncLayerInitialization_throws in Hrun; [done..|].
    apply Exists_exists. by exists layer. }
  destruct (syncLayerInitialization_spec layerList olMap Hwf Hcan)
    as (tuples & created & log' & Hrun' & Hfst & Hpairs).
  rewrite Hrun' in Hrun. injection Hrun as <- <- _. simpl.
  assert (map (fun tuple : Layer * nat => get_id (objects olMap ++ created) tuple.2) tuples
          = map getId layerList) as Hids.
  { rewrite <- Hfst, map_map. apply map_ext_in. intros [layer olLayer] Hin.
    apply list_elem_of_In in Hin. by destruct (Hpairs _ _ Hin). }
  split; [done|]. intros Hdistinct. rewrite <- Hids in Hdistinct.
  rewrite <- (map_map snd (get_id (objects olMap ++ created))) in Hdistinct.
  by apply (NoDup_fmap_1 (get_id (objects olMap ++ created))).
Qed.

End ThrowFacts.

Lemma syncOLState_unknown_type_throws_witness :
  syncOLState (H:=Sample.externals) 5 (Sample.engine ["A"]) Sample.noConstants
    [Sample.tile "A"; mkLayer (IdStr "B") (UNKNOWN "HEATMAP") true false "plain" "grid"]
  = Throw (Error "Cannot create corresponding OL layer").
Proof.
  apply (syncOLState_unknown_type_throws (H:=Sample.externals)).
  - repeat constructor.
  - apply Exists_cons_tl, Exists_cons_hd. split; [|reflexivity].
    intros Hin. apply list_elem_of_singleton in Hin. discriminate.
Defined.

Lemma syncLayerInitialization_pairs_by_id_witness :
  map (fun tuple : Layer * nat =>
         get_id (objects (Sample.engine ["A"; "B"]) ++ [Sample.olTile "C"]) tuple.2)
      [(Sample.tile "B", 1); (Sample.tile "C", 2)]
  = [IdStr "B"; IdStr "C"] /\
  (NoDup [IdStr "B"; IdStr "C"] -> NoDup [1; 2]).
Proof.
  apply (syncLayerInitialization_pairs_by_id (H:=Sample.externals)
           (Sample.engine ["A"; "B"]) [Sample.tile "B"; Sample.tile "C"]
           [(Sample.tile "B", 1); (Sample.tile "C", 2)]
           (mkOLMap Sample.origin [0; 1]
                    (objects (Sample.engine ["A"; "B"]) ++ [Sample.olTile "C"])) []).
  - repeat constructor.
  - reflexivity.
Defined.

(** ** What the loop of additions and updates does *)

Section LoopFacts.

Context `{External}.

Lemma get_id_alter (f : OLLayer -> OLLayer) olLayer objs :
  (forall o, ol_id (f o) = ol_id o) ->
  forall r, get_id (alter f olLayer objs) r = get_id objs r.
Proof.
  intros Hf r. unfold get_id. destruct (decide (olLayer = r)) as [->|Hne].
  - rewrite list_lookup_alter_eq. destruct (objs !! r); simpl; [apply Hf|done].
  - by rewrite list_lookup_alter_ne.
Qed.

Lemma ol_id_updated layer o : ol_id (updated layer o) = ol_id o.
Proof. unfold updated. by destruct (getType layer), (ol_class o). Qed.

Lemma ol_class_updated layer o : ol_class (updated layer o) = ol_class o.
Proof. unfold updated. by destruct (getType layer), (ol_class o). Qed.

Lemma updated_twice layer o : updated layer (updated layer o) = updated layer o.
Proof. unfold updated. by destruct (getType layer), (ol_class o). Qed.

(** One turn of the loop, in closed form. *)
Lemma addAndUpdate_closed layersIds olMap log layer olLayer :
  (addAndUpdate layersIds (olMap, log) (layer, olLayer)).1
  = mkOLMap (getView olMap)
            (addLayers (objects olMap) (getLayers olMap) olLayer layersIds)
            (alter (updated layer) olLayer (objects olMap)).
Proof.
  unfold addAndUpdate, updateFillAndOutlineStyle, has_setStyle, setStyle, setVisible.
  assert (forall objs' : list OLLayer,
            objs' = alter (updated layer) olLayer (objects olMap) ->
            forall view layers, mkOLMap view layers objs'
                                = mkOLMap view layers (alter (updated layer) olLayer (objects olMap)))
    as Hrecord by (by intros ? ->).
  case_bool_decide as Htype.
  - rewrite list_lookup_alter_eq.
    destruct (objects olMap !! olLayer) as [o|] eqn:Ho; simpl.
    + destruct (ol_class o) eqn:Hclass; simpl; apply Hrecord; apply list_eq; intros r;
        (destruct (decide (olLayer = r)) as [<-|Hne];
         [ rewrite ?list_lookup_alter_eq, Ho; simpl; unfold updated;
           by rewrite Htype, Hclass
         | by rewrite ?list_lookup_alter_ne ]).
    + apply Hrecord. apply list_eq. intros r.
      destruct (decide (olLayer = r)) as [<-|Hne];
        [by rewrite !list_lookup_alter_eq, Ho | by rewrite ?list_lookup_alter_ne].
  - simpl. apply Hrecord. apply list_eq. intros r.
    destruct (decide (olLayer = r)) as [<-|Hne]; [|by rewrite ?list_lookup_alter_ne].
    rewrite !list_lookup_alter_eq. destruct (objects olMap !! olLayer) as [o|]; [|done].
    simpl. unfold updated. by destruct (getType layer).
Qed.

Lemma get_id_updates layersWithOl :
  forall objs r, get_id (updates objs layersWithOl) r = get_id objs r.
Proof.
  unfold updates. induction layersWithOl as [|[layer olLayer] rest IH]; intros objs r;
    simpl; [done|].
  rewrite IH. apply get_id_alter. apply ol_id_updated.
Qed.

Lemma updates_elsewhere layersWithOl :
  forall objs r, r ∉ map snd layersWithOl -> updates objs layersWithOl !! r = objs !! r.
Proof.
  unfold updates. induction layersWithOl as [|[layer olLayer] rest IH]; intros objs r Hr;
    simpl in *; [done|].
  apply not_elem_of_cons in Hr as [Hne Hr].
  rewrite IH by done. by apply list_lookup_alter_ne.
Qed.

Lemma updates_at layersWithOl :
  forall objs layer olLayer,
    NoDup (map snd layersWithOl) ->
    (layer, olLayer) ∈ layersWithOl ->
    updates objs layersWithOl !! olLayer = updated layer <$> objs !! olLayer.
Proof.
  induction layersWithOl as [|[layer0 olLayer0] rest IH]; intros objs layer olLayer Hnd Hin;
    [by apply elem_of_nil in Hin|].
  simpl in Hnd. apply NoDup_cons in Hnd as [Hfresh Hnd].
  apply elem_of_cons in Hin as [Heq|Hin].
  - injection Heq as -> ->. change (updates objs ((layer0, olLayer0) :: rest))
      with (updates (alter (updated layer0) olLayer0 objs) rest).
    rewrite updates_elsewhere by done. apply list_lookup_alter_eq.
  - change (updates objs ((layer0, olLayer0) :: rest))
      with (updates (alter (updated layer0) olLayer0 objs) rest).
    rewrite (IH _ layer olLayer Hnd Hin). rewrite list_lookup_alter_ne; [done|].
    intros ->. apply Hfresh. apply list_elem_of_fmap. by exists (layer, olLayer).
Qed.

Lemma addsAndUpdates_closed olMap layersWithOl :
  (addsAndUpdates olMap layersWithOl).1
  = mkOLMap (getView olMap)
            (getLayers olMap
               ++ List.filter (pushed (objects olMap)
                                      (getLayersIds (objects olMap) (getLayers olMap)))
                              (map snd layersWithOl))
            (updates (objects olMap) layersWithOl).
Proof.
  unfold addsAndUpdates, updates.
  induction layersWithOl as [|[layer olLayer] l IH] using rev_ind.
  - simpl. rewrite app_nil_r. by destruct olMap.
  - rewrite !foldl_snoc.
    destruct (foldl _ (olMap, []) l) as [olMap1 log1]. simpl in IH. subst olMap1.
    rewrite addAndUpdate_closed. simpl. f_equal.
    rewrite addLayers_test, map_app, List.filter_app, app_assoc. simpl.
    fold (updates (objects olMap) l). rewrite get_id_updates. unfold pushed.
    destruct (truthy _ && _); simpl; [by rewrite app_nil_r|done].
Qed.

(** The loop leaves the layers of the collection where they are and appends,
    in the order of the pairs, the layer objects whose id is falsy or is
    carried by no layer of the collection as it was when the loop began. *)
Theorem addsAndUpdates_appends olMap layersWithOl :
  getLayers (addsAndUpdates olMap layersWithOl).1
  = getLayers olMap
      ++ List.filter (pushed (objects olMap)
                             (getLayersIds (objects olMap) (getLayers olMap)))
                     (map snd layersWithOl).
Proof. by rewrite addsAndUpdates_closed. Qed.

(** When the pairs hold distinct layer objects, the loop leaves each paired
    object with the visibility of its layer and, for a VECTOR layer paired
    with a vector layer object, with the style resolved for that layer; it
    changes nothing else of the object, and it does not touch the objects that
    are not paired.  The view stays as it was. *)
Theorem addsAndUpdates_writes olMap layersWithOl :
  NoDup (map snd layersWithOl) ->
  let olMap' := (addsAndUpdates olMap layersWithOl).1 in
  (forall layer olLayer,
      (layer, olLayer) ∈ layersWithOl ->
      objects olMap' !! olLayer = updated layer <$> objects olMap !! olLayer /\
      (ol_visible <$> objects olMap' !! olLayer)
        = ((fun _ => isVisible layer) <$> objects olMap !! olLayer)) /\
  (forall r, r ∉ map snd layersWithOl -> objects olMap' !! r = objects olMap !! r) /\
  getView olMap' = getView olMap.
Proof.
  intros Hnd. rewrite addsAndUpdates_closed. simpl. split_and!; [|apply updates_elsewhere|done].
  intros layer olLayer Hin. rewrite (updates_at _ _ _ _ Hnd Hin). split; [done|].
  destruct (objects olMap !! olLayer) as [o|]; [|done]. simpl. f_equal.
  unfold updated. by destruct (getType layer), (ol_class o).
Qed.

End LoopFacts.

Lemma addsAndUpdates_writes_witness :
  let olMap := Sample.engine ["A"; "B"] in
  let layersWithOl := [(mkLayer (IdStr "B") TILE false false "plain" "http://tiles", 1)] in
  let olMap' := (addsAndUpdates (H:=Sample.externals) olMap layersWithOl).1 in
  (forall layer olLayer,
      (layer, olLayer) ∈ layersWithOl ->
      objects olMap' !! olLayer
        = updated (H:=Sample.externals) layer <$> objects olMap !! olLayer /\
      (ol_visible <$> objects olMap' !! olLayer)
        = ((fun _ => isVisible layer) <$> objects olMap !! olLayer)) /\
  (forall r, r ∉ map snd layersWithOl -> objects olMap' !! r = objects olMap !! r) /\
  getView olMap' = getView olMap.
Proof.
  apply (addsAndUpdates_writes (H:=Sample.externals) (Sample.engine ["A"; "B"])
           [(mkLayer (IdStr "B") TILE false false "plain" "http://tiles", 1)]).
  apply (bool_decide_unpack _). vm_compute. exact I.
Defined.

(** ** The view, synchronised twice *)

Section ViewTwice.

Context `{External}.


End ViewTwice.


(** ** A pass with at most one layer to remove *)

Lemma filter_map_commute {A B : Type} (f : A -> B) (p : A -> bool) (q : B -> bool)
    (l : list A) :
  (forall x, x ∈ l -> p x = q (f x)) ->
  map f (List.filter p l) = List.filter q (map f l).
Proof.
  induction l as [|x l IH]; intros Hpq; simpl; [done|].
  rewrite <- (Hpq x) by apply list_elem_of_here.
  rewrite <- IH by (intros y Hy; apply Hpq; by apply list_elem_of_further).
  by destruct (p x).
Qed.

Lemma elem_of_List_filter {A : Type} (p : A -> bool) (l : list A) (x : A) :
  x ∈ List.filter p l <-> x ∈ l /\ p x = true.
Proof. rewrite !list_elem_of_In. apply filter_In. Qed.

Lemma NoDup_List_filter {A : Type} (p : A -> bool) (l : list A) :
  NoDup l -> NoDup (List.filter p l).
Proof.
  induction 1 as [|x l Hx _ IH]; simpl; [constructor|].
  destruct (p x); [|done]. constructor; [|done].
  rewrite elem_of_List_filter. by intros [? _].
Qed.

Lemma NoDup_map_inj {A B : Type} (f : A -> B) (l : list A) (x y : A) :
  NoDup (map f l) -> x ∈ l -> y ∈ l -> f x = f y -> x = y.
Proof.
  intros Hnd Hx Hy Hxy.
  apply list_elem_of_lookup_1 in Hx as [i Hi]. apply list_elem_of_lookup_1 in Hy as [j Hj].
  assert (map f l !! i = Some (f x)) as Hi'.
  { change (map f l) with (f <$> l). by rewrite list_lookup_fmap, Hi. }
  assert (map f l !! j = Some (f x)) as Hj'.
  { change (map f l) with (f <$> l). by rewrite list_lookup_fmap, Hj, Hxy. }
  pose proof (NoDup_lookup _ _ _ _ Hnd Hi' Hj') as ->. congruence.
Qed.

Lemma paired_layer (layersWithOl : list (Layer * nat)) layer :
  layer ∈ map fst layersWithOl -> exists olLayer, (layer, olLayer) ∈ layersWithOl.
Proof.
  intros Hin. apply list_elem_of_fmap in Hin as [[layer' olLayer] [-> Hin]].
  by exists olLayer.
Qed.

Lemma Raw_in_getLayersIds objs mapLayers id :
  Raw id ∈ getLayersIds objs mapLayers <-> truthy id = true /\ id ∈ ids_of objs mapLayers.
Proof.
  rewrite getLayersIds_entries. change (map entry_of ?l) with (entry_of <$> l).
  rewrite list_elem_of_fmap. unfold entry_of. split.
  - intros (a & Ha & Hin). destruct (truthy a) eqn:Htruthy; [|done].
    injection Ha as ->. done.
  - intros [Htruthy Hin]. exists id. by rewrite Htruthy.
Qed.

Lemma truthy_live objs r : truthy (get_id objs r) = true -> is_Some (objs !! r).
Proof. unfold get_id. destruct (objs !! r); [by eexists|done]. Qed.

Lemma get_id_grown objs created r :
  r < length objs -> get_id (objs ++ created) r = get_id objs r.
Proof. intros Hr. unfold get_id. by rewrite lookup_app_l. Qed.

Lemma updateMapLayerOrder_in_order fuel objs mapLayers newLayerOrder :
  ids_of objs mapLayers = newLayerOrder ->
  Forall (fun id => truthy id = true) newLayerOrder ->
  updateMapLayerOrder (S fuel) objs mapLayers (getLayersIds objs mapLayers) newLayerOrder
  = Ok (mapLayers, 0).
Proof.
  intros Hids Htruthy. cbn [updateMapLayerOrder].
  assert (firstMismatch (getLayersIds objs mapLayers) newLayerOrder 0 = None) as ->; [|done].
  rewrite getLayersIds_truthy by (by rewrite Hids). rewrite Hids.
  apply firstMismatch_None. intros k id Hk. simpl.
  rewrite (at_index_Raw _ _ _ Hk), strict_eq_Raw. by apply bool_decide_eq_true.
Qed.

Section ViewOnly.

Context `{External}.

Lemma syncOLMap_view_only olMap1 olMap2 mapConstants :
  getView olMap1 = getView olMap2 ->
  getView (syncOLMap olMap1 mapConstants).1 = getView (syncOLMap olMap2 mapConstants).1 /\
  (syncOLMap olMap1 mapConstants).2 = (syncOLMap olMap2 mapConstants).2.
Proof.
  intros Hview. unfold syncOLMap. rewrite Hview.
  by destruct (mc_zoom mapConstants), (mc_center mapConstants);
    repeat (case_bool_decide; simpl).
Qed.

Lemma syncOLMap_twice_view olMap mapConstants :
  getView (syncOLMap (syncOLMap olMap mapConstants).1 mapConstants).1
  = getView (syncOLMap olMap mapConstants).1.
Proof.
  destruct olMap as [[center zoom] mapLayers objs].
  assert (forall P `{Decision P}, P -> bool_decide P = true) as Hyes
    by (intros; by apply bool_decide_eq_true).
  assert (forall P `{Decision P}, ~ P -> bool_decide P = false) as Hno
    by (intros; by apply bool_decide_eq_false).
  destruct mapConstants as [[c|] [z|]]; unfold syncOLMap; simpl;
    try (destruct (decide (z = zoom)) as [Hz|Hz];
         [rewrite (Hyes _ _ Hz)|rewrite (Hno _ _ Hz)]; simpl);
    try (destruct (decide (c = transform center WEBMERCATOR WGS_84)) as [Hc|Hc];
         [rewrite ?(Hyes _ _ Hc)|rewrite ?(Hno _ _ Hc)]; simpl);
    rewrite ?(Hyes (z = z)) by done; rewrite ?(Hyes _ _ Hz); simpl;
    try (destruct (decide (c = transform (transform c WGS_84 WEBMERCATOR) WEBMERCATOR WGS_84))
           as [Hback|Hback];
         [rewrite ?(Hyes _ _ Hback)|rewrite ?(Hno _ _ Hback)]; simpl);
    done.
Qed.

End ViewOnly.

Section AtMostOne.

Context `{External}.

Lemma filter_nothing {A : Type} (p : A -> bool) (l : list A) :
  (forall x, x ∈ l -> p x = false) -> List.filter p l = [].
Proof.
  induction l as [|x l IH]; intros Hp; simpl; [done|].
  rewrite (Hp x) by apply list_elem_of_here.
  apply IH. intros y Hy. apply Hp. by apply list_elem_of_further.
Qed.

Lemma filter_everything {A : Type} (p : A -> bool) (l : list A) :
  (forall x, x ∈ l -> p x = true) -> List.filter p l = l.
Proof.
  induction l as [|x l IH]; intros Hp; simpl; [done|].
  rewrite (Hp x) by apply list_elem_of_here. f_equal.
  apply IH. intros y Hy. apply Hp. by apply list_elem_of_further.
Qed.

Lemma filter_agree {A : Type} (p q : A -> bool) (l : list A) :
  (forall x, x ∈ l -> p x = q x) -> List.filter p l = List.filter q l.
Proof.
  intros Hpq. apply filter_ext_in. intros x Hx. apply Hpq. by apply list_elem_of_In.
Qed.

Lemma syncOLState_reaches_agreement fuel olMap mapConstants layerList :
  Forall (fun r => r < length (objects olMap)) (getLayers olMap) ->
  NoDup (ids_of (objects olMap) (getLayers olMap)) ->
  NoDup (map getId layerList) ->
  Forall (fun id => truthy id = true) (map getId layerList) ->
  Forall (fun layer => getId layer ∈ ids_of (objects olMap) (getLayers olMap) \/
                       supported (getType layer) = true) layerList ->
  length (List.filter (fun r => negb (wanted (objects olMap) (map getId layerList) r))
                      (getLayers olMap)) <= 1 ->
  2 ^ (length layerList - 1) <= fuel ->
  exists olMap' log,
    syncOLState fuel olMap mapConstants layerList = Ok (olMap', log) /\
    agrees olMap' mapConstants layerList.
Proof.
  intros Hwf Hnd Hdistinct Htruthy Hcan Hone Hfuel. unfold syncOLState.
  destruct (syncOLMap_frame olMap mapConstants) as [Hlayers1 Hobjs1].
  pose proof (syncOLMap_twice_view olMap mapConstants) as Hview1.
  destruct (syncOLMap olMap mapConstants) as [olMap1 log1].
  simpl in Hlayers1, Hobjs1, Hview1.
  rewrite <- Hlayers1, <- Hobjs1 in Hwf, Hnd, Hcan, Hone. clear Hlayers1 Hobjs1 olMap.
  destruct (syncLayerInitialization_spec layerList olMap1 Hwf Hcan)
    as (tuples & created & log2 & -> & Hfst & Hpairs).
  destruct olMap1 as [view layers objs]. simpl in *.
  set (objs2 := objs ++ created) in *.
  set (Lids := map getId layerList) in *.
  set (ids := ids_of objs layers) in *.
  unfold syncOLState_result.
  pose proof (addsAndUpdates_closed (with_objects objs2 (mkOLMap view layers objs)) tuples)
    as Hloop.
  destruct (addsAndUpdates (with_objects objs2 (mkOLMap view layers objs)) tuples)
    as [olMap3 log3]. simpl in Hloop. subst olMap3. simpl.
  set (objs3 := updates objs2 tuples).
  set (added := List.filter (pushed objs2 (getLayersIds objs2 layers)) (map snd tuples)).
  assert (map (fun tuple : Layer * nat => getId tuple.1) tuples = Lids) as Hnew.
  { unfold Lids. by rewrite <- Hfst, map_map. }
  rewrite Hnew.
  (* the ids the stores give *)
  assert (forall r, r ∈ layers -> get_id objs2 r = get_id objs r) as Hgrown.
  { intros r Hr. apply get_id_grown. by apply (proj1 (Forall_forall _ _) Hwf). }
  assert (forall r, get_id objs3 r = get_id objs2 r) as Hkept by apply get_id_updates.
  assert (ids_of objs2 layers = ids) as Hids2 by (by apply ids_of_grown).
  assert (forall layer r, (layer, r) ∈ tuples ->
            layer ∈ layerList /\ get_id objs2 r = getId layer /\
            truthy (getId layer) = true /\ getId layer ∈ Lids) as Htuple.
  { intros layer r Hin. assert (layer ∈ layerList) as HinL.
    { rewrite <- Hfst. apply list_elem_of_fmap. by exists (layer, r). }
    assert (getId layer ∈ Lids) as HinIds by (apply list_elem_of_fmap; by exists layer).
    split_and!; [done|by destruct (Hpairs _ _ Hin)| |done].
    by apply (proj1 (Forall_forall _ _) Htruthy). }
  assert (map (get_id objs2) (map snd tuples) = Lids) as Hrefs.
  { rewrite <- Hnew, map_map. apply map_ext_in. intros [layer r] Hin.
    apply list_elem_of_In in Hin. simpl. by destruct (Htuple _ _ Hin) as (_ & -> & _). }
  assert (NoDup (map snd tuples)) as Hnd_refs.
  { apply (NoDup_fmap_1 (get_id objs2)). change (NoDup (map (get_id objs2) (map snd tuples))).
    by rewrite Hrefs. }
  (* what is pushed *)
  assert (forall layer r, (layer, r) ∈ tuples ->
            pushed objs2 (getLayersIds objs2 layers) r
            = negb (bool_decide (getId layer ∈ ids))) as Hpushed.
  { intros layer r Hin. destruct (Htuple _ _ Hin) as (_ & Hid & Hty & _).
    unfold pushed. rewrite Hid, Hty. simpl. f_equal. apply bool_decide_ext.
    rewrite Raw_in_getLayersIds, Hids2. split; [by intros [_ ?]|by split]. }
  assert (map (get_id objs2) added
          = List.filter (fun id => negb (bool_decide (id ∈ ids))) Lids) as Hadded.
  { unfold added. rewrite <- Hrefs. apply filter_map_commute.
    intros r Hr. apply list_elem_of_fmap in Hr as [[layer r'] [-> Hin]]. simpl.
    rewrite (Hpushed _ _ Hin). by destruct (Htuple _ _ Hin) as (_ & -> & _). }
  assert (forall r, r ∈ added -> wanted objs3 Lids r = true) as Hadded_wanted.
  { intros r Hr. apply elem_of_List_filter in Hr as [Hr _].
    apply list_elem_of_fmap in Hr as [[layer r'] [-> Hin]]. simpl.
    destruct (Htuple _ _ Hin) as (_ & Hid & Hty & HinIds).
    unfold wanted. rewrite Hkept, Hid, Hty. simpl. by apply bool_decide_eq_true. }
  assert (forall r, r ∈ layers -> wanted objs3 Lids r = wanted objs Lids r) as Hlayers_wanted.
  { intros r Hr. unfold wanted. by rewrite Hkept, Hgrown. }
  (* the removal *)
  set (kept := List.filter (wanted objs Lids) layers).
  assert (removeLayers objs3 (layers ++ added) Lids = kept ++ added) as ->.
  { unfold removeLayers.
    etrans; [apply (removeLayers_from objs3 Lids (layers ++ added) [])|].
    - rewrite List.filter_app, (filter_nothing _ added), app_nil_r.
      + erewrite filter_agree; [exact Hone|]. intros r Hr. simpl.
        by rewrite Hlayers_wanted.
      + intros r Hr. by rewrite Hadded_wanted.
    - simpl. rewrite List.filter_app. f_equal.
      + by apply filter_agree.
      + by apply filter_everything. }
  (* the ids left are the wanted ids *)
  assert (ids_of objs3 (kept ++ added)
          = List.filter (fun id => truthy id && bool_decide (id ∈ Lids)) ids
              ++ List.filter (fun id => negb (bool_decide (id ∈ ids))) Lids) as Hleft.
  { unfold ids_of. rewrite map_app. f_equal.
    - unfold kept, ids, ids_of.
      rewrite <- (filter_map_commute (get_id objs) (wanted objs Lids)) by done.
      apply map_ext_in. intros r Hr. apply list_elem_of_In, elem_of_List_filter in Hr as [Hr _].
      by rewrite Hkept, Hgrown.
    - rewrite <- Hadded. apply map_ext. intros r. apply Hkept. }
  assert (Permutation (ids_of objs3 (kept ++ added)) Lids) as Hperm.
  { rewrite Hleft. apply NoDup_Permutation; [|done|].
    - apply NoDup_app. split_and!.
      + by apply NoDup_List_filter.
      + intros x Hx Hx'. apply elem_of_List_filter in Hx as [Hx _].
        apply elem_of_List_filter in Hx' as [_ Hx'].
        apply negb_true_iff, bool_decide_eq_false in Hx'. done.
      + by apply NoDup_List_filter.
    - intros x. rewrite elem_of_app, !elem_of_List_filter. split.
      + intros [[_ Hx]|[Hx _]]; [|done].
        apply andb_prop in Hx as [_ Hx]. by apply bool_decide_eq_true in Hx.
      + intros Hx. destruct (decide (x ∈ ids)) as [Hin|Hout].
        * left. split; [done|].
          rewrite (proj1 (Forall_forall _ _) Htruthy x Hx). simpl.
          by apply bool_decide_eq_true.
        * right. split; [done|]. by apply negb_true_iff, bool_decide_eq_false. }
  (* the reordering *)
  assert (2 ^ (length Lids - 1) <> 0) as Hpow by (apply Nat.pow_nonzero; lia).
  destruct (reorder_converges objs3 Lids Hdistinct Htruthy
              (2 ^ (length Lids - 1) - 1) (kept ++ added) fuel Hperm)
    as (final & steps & Hrun & _ & Hfinal).
  { lia. }
  { unfold Lids in *. rewrite length_map in *. lia. }
  rewrite Hrun. eexists _, _. split; [done|].
  apply updateMapLayerOrder_permutes in Hrun.
  unfold agrees. split_and!; [done|done|done| |].
  - simpl. intros layer r HinL Hr Hid.
    assert (layer ∈ map fst tuples) as Hin by (by rewrite Hfst).
    apply paired_layer in Hin as [r1 Hin].
    destruct (Htuple _ _ Hin) as (_ & Hid1 & Hty & HinIds).
    assert (r1 ∈ final) as Hr1.
    { rewrite Hrun. apply elem_of_app.
      destruct (decide (getId layer ∈ ids)) as [Hpresent|Habsent].
      - left. destruct (Hpairs _ _ Hin) as [_ Hwhere].
        rewrite decide_True in Hwhere by done.
        apply elem_of_List_filter. split; [done|].
        unfold wanted. rewrite <- (Hgrown _ Hwhere), Hid1, Hty. simpl.
        by apply bool_decide_eq_true.
      - right. apply elem_of_List_filter. split.
        + apply list_elem_of_fmap. by exists (layer, r1).
        + rewrite (Hpushed _ _ Hin). by apply negb_true_iff, bool_decide_eq_false. }
    assert (r1 = r) as <-.
    { apply (NoDup_map_inj (get_id objs3) final); [|done|done|].
      - change (NoDup (ids_of objs3 final)). by rewrite Hfinal.
      - by rewrite Hid, Hkept. }
    destruct (truthy_live objs2 r1) as [o2 Ho2]; [by rewrite Hid1|].
    exists (updated layer o2). split; [|apply updated_twice].
    unfold objs3. by rewrite (updates_at _ _ _ _ Hnd_refs Hin), Ho2.
  - etrans; [|exact Hview1].
    apply (syncOLMap_view_only (mkOLMap view final objs3) (mkOLMap view layers objs)
             mapConstants eq_refl).
Qed.

End AtMostOne.

Section Agreement.

Context `{External}.

Lemma with_view_same olMap : with_view (getView olMap) olMap = olMap.
Proof. by destruct olMap. Qed.

Lemma syncOLMap_keeps olMap mapConstants :
  getView (syncOLMap olMap mapConstants).1 = getView olMap ->
  (syncOLMap olMap mapConstants).1 = olMap.
Proof.
  destruct (syncOLMap_frame olMap mapConstants) as [Hlayers Hobjs].
  destruct (syncOLMap olMap mapConstants) as [[view' layers' objs'] log]. simpl in *.
  intros ->. subst. by destruct olMap.
Qed.

Lemma ol_visible_updated layer o : ol_visible (updated layer o) = isVisible layer.
Proof. unfold updated. by destruct (getType layer), (ol_class o). Qed.

(** A map that agrees with the layer list and the constants is left as it is
    by a pass. *)
Lemma syncOLState_fixed fuel olMap mapConstants layerList :
  agrees olMap mapConstants layerList ->
  exists log, syncOLState (S fuel) olMap mapConstants layerList = Ok (olMap, log).
Proof.
  intros (Hids & Hdistinct & Htruthy & Hobjects & Hview). unfold syncOLState.
  pose proof (syncOLMap_keeps olMap mapConstants Hview) as Hsame.
  destruct (syncOLMap olMap mapConstants) as [olMap1 log1]. simpl in Hsame. subst olMap1.
  destruct (syncLayerInitialization_present olMap layerList)
    as (tuples & -> & Hfst & Hpairs).
  { apply Forall_forall. intros layer Hin. rewrite Hids.
    apply list_elem_of_fmap. by exists layer. }
  unfold syncOLState_result.
  pose proof (addsAndUpdates_closed olMap tuples) as Hloop.
  destruct (addsAndUpdates olMap tuples) as [olMap3 log3]. simpl in Hloop. subst olMap3.
  set (objs := objects olMap) in *. set (layers := getLayers olMap) in *.
  assert (map (fun tuple : Layer * nat => getId tuple.1) tuples = map getId layerList)
    as Hnew by (by rewrite <- Hfst, map_map).
  assert (forall layer r, (layer, r) ∈ tuples ->
            layer ∈ layerList /\ truthy (get_id objs r) = true /\
            get_id objs r ∈ map getId layerList) as Htuple.
  { intros layer r Hin. assert (layer ∈ layerList) as HinL.
    { rewrite <- Hfst. apply list_elem_of_fmap. by exists (layer, r). }
    destruct (Hpairs _ _ Hin) as [_ ->].
    assert (getId layer ∈ map getId layerList) as HinIds
      by (apply list_elem_of_fmap; by exists layer).
    split_and!; [done| |done]. by apply (proj1 (Forall_forall _ _) Htruthy). }
  assert (NoDup (map snd tuples)) as Hnd_refs.
  { apply (NoDup_fmap_1 (get_id objs)).
    change (NoDup (map (get_id objs) (map snd tuples))).
    rewrite map_map.
    replace (map (fun x : Layer * nat => get_id objs x.2) tuples)
      with (map (fun tuple : Layer * nat => getId tuple.1) tuples); [by rewrite Hnew|].
    apply map_ext_in. intros [layer r] Hin. apply list_elem_of_In in Hin. simpl.
    by destruct (Hpairs _ _ Hin) as [_ ->]. }
  assert (updates objs tuples = objs) as Hobjs.
  { apply list_eq. intros r. destruct (decide (r ∈ map snd tuples)) as [Hr|Hr].
    - apply list_elem_of_fmap in Hr as [[layer r'] [-> Hin]]. simpl.
      rewrite (updates_at _ _ _ _ Hnd_refs Hin).
      destruct (Hpairs _ _ Hin) as [Hr Hid]. destruct (Htuple _ _ Hin) as (HinL & _).
      destruct (Hobjects layer r' HinL Hr Hid) as (o & -> & Ho). simpl. by rewrite Ho.
    - by apply updates_elsewhere. }
  assert (List.filter (pushed objs (getLayersIds objs layers)) (map snd tuples) = [])
    as Hnone.
  { apply filter_nothing. intros r Hr.
    apply list_elem_of_fmap in Hr as [[layer r'] [-> Hin]]. simpl.
    destruct (Htuple _ _ Hin) as (_ & Hty & _). destruct (Hpairs _ _ Hin) as [Hr _].
    unfold pushed. rewrite Hty. simpl. apply negb_false_iff, bool_decide_eq_true.
    apply Raw_in_getLayersIds. split; [done|]. unfold ids_of.
    apply list_elem_of_fmap. by exists r'. }
  cbn [getLayers objects getView with_layers].
  rewrite Hnone, app_nil_r, Hobjs, Hnew.
  assert (removeLayers objs layers (map getId layerList) = layers) as ->.
  { unfold removeLayers. rewrite layersToRemove_none; [done|].
    apply Forall_forall. intros r Hr.
    assert (get_id objs r ∈ map getId layerList) as Hin.
    { rewrite <- Hids. unfold ids_of. apply list_elem_of_fmap. by exists r. }
    rewrite (proj1 (Forall_forall _ _) Htruthy _ Hin). simpl.
    by apply bool_decide_eq_true. }
  rewrite updateMapLayerOrder_in_order by done.
  eexists. f_equal. f_equal. by destruct olMap.
Qed.

(** A pass with at most one layer to remove.  Let the collection hold live
    layer objects of distinct ids, at most one of which has an id that is
    falsy or not wanted, and let the layer list have distinct, truthy ids and
    a known type for every layer that has no layer object yet.  Then the pass
    returns, given room for [2 ^ (n - 1)] activations of the reordering, and
    the collection holds, at each index of the list, a layer object with the
    id and the visibility of the layer at that index, and nothing else. *)
Theorem syncOLState_at_most_one_removal fuel olMap mapConstants layerList :
  Forall (fun r => r < length (objects olMap)) (getLayers olMap) ->
  NoDup (ids_of (objects olMap) (getLayers olMap)) ->
  NoDup (map getId layerList) ->
  Forall (fun id => truthy id = true) (map getId layerList) ->
  Forall (fun layer => getId layer ∈ ids_of (objects olMap) (getLayers olMap) \/
                       supported (getType layer) = true) layerList ->
  length (List.filter (fun r => negb (wanted (objects olMap) (map getId layerList) r))
                      (getLayers olMap)) <= 1 ->
  2 ^ (length layerList - 1) <= fuel ->
  exists olMap' log,
    syncOLState fuel olMap mapConstants layerList = Ok (olMap', log) /\
    length (getLayers olMap') = length layerList /\
    forall idx layer,
      layerList !! idx = Some layer ->
      exists olLayer o,
        getLayers olMap' !! idx = Some olLayer /\
        objects olMap' !! olLayer = Some o /\
        ol_id o = getId layer /\
        ol_visible o = isVisible layer.
Proof.
  intros Hwf Hnd Hdistinct Htruthy Hcan Hone Hfuel.
  destruct (syncOLState_reaches_agreement fuel olMap mapConstants layerList)
    as (olMap' & log & Hrun & Hids & _ & _ & Hobjects & _); [done..|].
  exists olMap', log. split; [done|]. split.
  { unfold ids_of in Hids. apply (f_equal length) in Hids. by rewrite !length_map in Hids. }
  intros idx layer Hidx.
  assert (ids_of (objects olMap') (getLayers olMap') !! idx = Some (getId layer)) as Hat.
  { rewrite Hids. change (map getId layerList) with (getId <$> layerList).
    by rewrite list_lookup_fmap, Hidx. }
  unfold ids_of in Hat. change (map ?f ?l) with (f <$> l) in Hat.
  rewrite list_lookup_fmap in Hat.
  destruct (getLayers olMap' !! idx) as [olLayer|] eqn:Hr; [|done].
  injection Hat as Hid.
  destruct (Hobjects layer olLayer) as (o & Ho & Hfix);
    [by eapply list_elem_of_lookup_2..|done|].
  exists olLayer, o. split_and!; [done|done|..].
  - unfold get_id in Hid. by rewrite Ho in Hid.
  - rewrite <- Hfix. apply ol_visible_updated.
Qed.

(** Under the same conditions a second pass with the same layer list and
    constants returns the map exactly as the first pass left it. *)
Theorem syncOLState_idempotent fuel olMap mapConstants layerList :
  Forall (fun r => r < length (objects olMap)) (getLayers olMap) ->
  NoDup (ids_of (objects olMap) (getLayers olMap)) ->
  NoDup (map getId layerList) ->
  Forall (fun id => truthy id = true) (map getId layerList) ->
  Forall (fun layer => getId layer ∈ ids_of (objects olMap) (getLayers olMap) \/
                       supported (getType layer) = true) layerList ->
  length (List.filter (fun r => negb (wanted (objects olMap) (map getId layerList) r))
                      (getLayers olMap)) <= 1 ->
  2 ^ (length layerList - 1) <= fuel ->
  exists olMap' log log',
    syncOLState fuel olMap mapConstants layerList = Ok (olMap', log) /\
    syncOLState fuel olMap' mapConstants layerList = Ok (olMap', log').
Proof.
  intros Hwf Hnd Hdistinct Htruthy Hcan Hone Hfuel.
  destruct (syncOLState_reaches_agreement fuel olMap mapConstants layerList)
    as (olMap' & log & Hrun & Hagrees); [done..|].
  destruct fuel as [|fuel].
  { assert (2 ^ (length layerList - 1) <> 0) by (apply Nat.pow_nonzero; lia). lia. }
  destruct (syncOLState_fixed fuel olMap' mapConstants layerList Hagrees) as [log' Hrun'].
  by exists olMap', log, log'.
Qed.

(** The first pass after the module is loaded: over any layer list with
    distinct, truthy ids and known types it returns with the layers of the
    list in the collection, in the order of the list. *)
Theorem syncOLState_first_pass fuel mapConstants layerList :
  NoDup (map getId layerList) ->
  Forall (fun id => truthy id = true) (map getId layerList) ->
  Forall (fun layer => supported (getType layer) = true) layerList ->
  2 ^ (length layerList - 1) <= fuel ->
  exists olMap' log,
    syncOLState fuel getOLImplementation mapConstants layerList = Ok (olMap', log) /\
    ids_of (objects olMap') (getLayers olMap') = map getId layerList.
Proof.
  intros Hdistinct Htruthy Hknown Hfuel.
  destruct (syncOLState_reaches_agreement fuel getOLImplementation mapConstants layerList)
    as (olMap' & log & Hrun & Hids & _); try done.
  - simpl. constructor.
  - eapply Forall_impl; [exact Hknown|]. intros layer Hsup. by right.
  - simpl. lia.
  - by exists olMap', log.
Qed.

End Agreement.

Lemma syncOLState_at_most_one_removal_witness :
  exists olMap' log,
    syncOLState (H:=Sample.externals) 2 (Sample.engine ["A"; "B"]) Sample.noConstants
      [Sample.vector "C"; Sample.tile "A"] = Ok (olMap', log) /\
    length (getLayers olMap') = 2 /\
    forall idx layer,
      [Sample.vector "C"; Sample.tile "A"] !! idx = Some layer ->
      exists olLayer o,
        getLayers olMap' !! idx = Some olLayer /\
        objects olMap' !! olLayer = Some o /\
        ol_id o = getId layer /\
        ol_visible o = isVisible layer.
Proof.
  apply (syncOLState_at_most_one_removal (H:=Sample.externals) 2
           (Sample.engine ["A"; "B"]) Sample.noConstants
           [Sample.vector "C"; Sample.tile "A"]).
  - repeat constructor.
  - apply (bool_decide_unpack _). vm_compute. exact I.
  - apply (bool_decide_unpack _). vm_compute. exact I.
  - repeat constructor.
  - apply Forall_cons_2; [|apply Forall_cons_2; [|apply Forall_nil_2]].
    + right. reflexivity.
    + left. apply list_elem_of_here.
  - vm_compute. lia.
  - simpl. lia.
Defined.

Lemma syncOLState_idempotent_witness :
  exists olMap' log log',
    syncOLState (H:=Sample.externals) 2 (Sample.engine ["A"; "B"]) Sample.noConstants
      [Sample.vector "C"; Sample.tile "A"] = Ok (olMap', log) /\
    syncOLState (H:=Sample.externals) 2 olMap' Sample.noConstants
      [Sample.vector "C"; Sample.tile "A"] = Ok (olMap', log').
Proof.
  apply (syncOLState_idempotent (H:=Sample.externals) 2
           (Sample.engine ["A"; "B"]) Sample.noConstants
           [Sample.vector "C"; Sample.tile "A"]).
  - repeat constructor.
  - apply (bool_decide_unpack _). vm_compute. exact I.
  - apply (bool_decide_unpack _). vm_compute. exact I.
  - repeat constructor.
  - apply Forall_cons_2; [|apply Forall_cons_2; [|apply Forall_nil_2]].
    + right. reflexivity.
    + left. apply list_elem_of_here.
  - vm_compute. lia.
  - simpl. lia.
Defined.

Lemma syncOLState_first_pass_witness :
  exists olMap' log,
    syncOLState (H:=Sample.externals) 2 (getOLImplementation (H:=Sample.externals))
      (mkMapConstants (Some (10, 20)%Z) (Some 5%Z))
      [Sample.tile "A"; Sample.vector "B"] = Ok (olMap', log) /\
    ids_of (objects olMap') (getLayers olMap') = [IdStr "A"; IdStr "B"].
Proof.
  apply (syncOLState_first_pass (H:=Sample.externals) 2
           (mkMapConstants (Some (10, 20)%Z) (Some 5%Z))
           [Sample.tile "A"; Sample.vector "B"]).
  - apply (bool_decide_unpack _). vm_compute. exact I.
  - repeat constructor.
  - repeat constructor.
  - simpl. lia.
Defined.

Lemma updateMapLayerOrder_unbounded_witness :
  updateMapLayerOrder 100 (objects (Sample.engine ["B"])) [0]
    (getLayersIds (objects (Sample.engine ["B"])) [0]) [IdStr "C"] = Throw RangeError.
Proof.
  apply (updateMapLayerOrder_unbounded 100 (objects (Sample.engine ["B"])) 0 (IdStr "C")).
  discriminate.
Defined.

(** ** What a pass never touches *)

Section Untouched.

Context `{External}.

Lemma syncLayerInitialization_grows layerList :
  forall olMap layersWithOl olMap' log,
    syncLayerInitialization olMap layerList = Ok (layersWithOl, olMap', log) ->
    exists created, olMap' = with_objects (objects olMap ++ created) olMap.
Proof.
  induction layerList as [|layer rest IH]; intros olMap tuples olMap' log; simpl.
  - intros [= _ <- _]. exists []. by rewrite app_nil_r, with_objects_same.
  - destruct (find _ (getLayers olMap)) as [olLayer|].
    + rewrite with_objects_same.
      destruct (syncLayerInitialization olMap rest) as [[[tuples' olMap2] log2]|] eqn:Hrest;
        [|done].
      intros [= _ <- _]. by eapply IH.
    + unfold createCorrespondingOLLayer.
      destruct (match getType layer with UNKNOWN _ => _ | _ => _ end)
        as [[made log1]|]; [|done].
      destruct (syncLayerInitialization _ rest) as [[[tuples' olMap2] log2]|] eqn:Hrest;
        [|done].
      intros [= _ <- _]. destruct (IH _ _ _ _ Hrest) as [created ->]. simpl.
      exists (set_id (getId layer) made :: created). unfold with_objects. simpl.
      by rewrite <- app_assoc.
Qed.

Lemma updates_field {B : Type} (field : OLLayer -> B) layersWithOl :
  (forall layer o, field (updated layer o) = field o) ->
  forall objs r, field <$> updates objs layersWithOl !! r = field <$> objs !! r.
Proof.
  intros Hfield. unfold updates.
  induction layersWithOl as [|[layer olLayer] rest IH]; intros objs r; simpl; [done|].
  rewrite IH. destruct (decide (olLayer = r)) as [->|Hne].
  - rewrite list_lookup_alter_eq. destruct (objs !! r); simpl; [|done]. by rewrite Hfield.
  - by rewrite list_lookup_alter_ne.
Qed.

Lemma ol_source_updated layer o : ol_source (updated layer o) = ol_source o.
Proof. unfold updated. by destruct (getType layer), (ol_class o). Qed.

(** Whatever the inputs, a pass that returns has left every layer object of
    the store in the store, with the id, the class and the source it had:
    only the visibility and the style of an object are ever written. *)
Theorem syncOLState_keeps_objects fuel olMap mapConstants layerList olMap' log :
  syncOLState fuel olMap mapConstants layerList = Ok (olMap', log) ->
  forall r o,
    objects olMap !! r = Some o ->
    exists o',
      objects olMap' !! r = Some o' /\
      ol_id o' = ol_id o /\ ol_class o' = ol_class o /\ ol_source o' = ol_source o.
Proof.
  unfold syncOLState. intros Hrun r o Ho.
  destruct (syncOLMap_frame olMap mapConstants) as [_ Hobjs1].
  destruct (syncOLMap olMap mapConstants) as [olMap1 log1]. simpl in Hobjs1.
  destruct (syncLayerInitialization olMap1 layerList)
    as [[[tuples olMap2] log2]|] eqn:Hinit; [|done].
  apply syncLayerInitialization_grows in Hinit as [created ->].
  destruct (syncOLState_result fuel _ tuples) as [[olMap3 log3]|] eqn:Hresult; [|done].
  injection Hrun as <- _. unfold syncOLState_result in Hresult.
  pose proof (addsAndUpdates_closed (with_objects (objects olMap1 ++ created) olMap1) tuples)
    as Hloop.
  destruct (addsAndUpdates _ tuples) as [olMap4 log4]. simpl in Hloop. subst olMap4.
  destruct (updateMapLayerOrder fuel _ _ _ _) as [[final steps]|]; [|done].
  injection Hresult as <- _. simpl.
  assert ((objects olMap1 ++ created) !! r = Some o) as Ho2.
  { rewrite Hobjs1. by apply lookup_app_l_Some. }
  pose proof (updates_field ol_id tuples ol_id_updated (objects olMap1 ++ created) r) as Hid.
  pose proof (updates_field ol_class tuples ol_class_updated (objects olMap1 ++ created) r)
    as Hclass.
  pose proof (updates_field ol_source tuples ol_source_updated (objects olMap1 ++ created) r)
    as Hsource.
  rewrite Ho2 in Hid, Hclass, Hsource.
  destruct (updates (objects olMap1 ++ created) tuples !! r) as [o'|]; [|done].
  simpl in *. exists o'. split_and!; congruence.
Qed.

(** A map that agrees with the layer list and the constants is returned by
    a pass exactly as it was. *)
Theorem syncOLState_leaves_agreeing_map fuel olMap mapConstants layerList :
  agrees olMap mapConstants layerList ->
  exists log, syncOLState (S fuel) olMap mapConstants layerList = Ok (olMap, log).
Proof. apply syncOLState_fixed. Qed.

End Untouched.

Lemma syncOLState_keeps_objects_witness :
  exists o',
    [Sample.olTile "A"; Sample.olTile "C"] !! 1 = Some o' /\
    ol_id o' = ol_id (Sample.olTile "C") /\
    ol_class o' = ol_class (Sample.olTile "C") /\
    ol_source o' = ol_source (Sample.olTile "C").
Proof.
  apply (syncOLState_keeps_objects (H:=Sample.externals) 1 (Sample.engine ["A"; "C"])
           Sample.noConstants [Sample.tile "A"]
           (mkOLMap Sample.origin [0] [Sample.olTile "A"; Sample.olTile "C"]) []);
    reflexivity.
Defined.

Lemma syncOLState_leaves_agreeing_map_witness :
  exists log,
    syncOLState (H:=Sample.externals) 1 (Sample.engine ["A"]) Sample.noConstants
      [Sample.tile "A"] = Ok (Sample.engine ["A"], log).
Proof.
  apply (syncOLState_leaves_agreeing_map (H:=Sample.externals) 0 (Sample.engine ["A"])
           Sample.noConstants [Sample.tile "A"]).
  unfold agrees. split_and!.
  - reflexivity.
  - apply (bool_decide_unpack _). vm_compute. exact I.
  - repeat constructor.
  - intros layer olLayer Hlayer Hr _.
    apply list_elem_of_singleton in Hlayer. apply list_elem_of_singleton in Hr.
    subst layer olLayer. by exists (Sample.olTile "A").
  - reflexivity.
Defined.

Section Styles.

Context `{External}.

(** Under the conditions of a pass with at most one layer to remove, the
    layer object the pass leaves at the index of a VECTOR layer, when it is a
    vector layer object, carries the style resolved from the style and the
    temporary flag of that layer. *)
Theorem syncOLState_styles_vector fuel olMap mapConstants layerList :
  Forall (fun r => r < length (objects olMap)) (getLayers olMap) ->
  NoDup (ids_of (objects olMap) (getLayers olMap)) ->
  NoDup (map getId layerList) ->
  Forall (fun id => truthy id = true) (map getId layerList) ->
  Forall (fun layer => getId layer ∈ ids_of (objects olMap) (getLayers olMap) \/
                       supported (getType layer) = true) layerList ->
  length (List.filter (fun r => negb (wanted (objects olMap) (map getId layerList) r))
                      (getLayers olMap)) <= 1 ->
  2 ^ (length layerList - 1) <= fuel ->
  exists olMap' log,
    syncOLState fuel olMap mapConstants layerList = Ok (olMap', log) /\
    forall idx layer olLayer o,
      layerList !! idx = Some layer ->
      getLayers olMap' !! idx = Some olLayer ->
      objects olMap' !! olLayer = Some o ->
      getType layer = VECTOR -> ol_class o = OLVector ->
      ol_style o = Some (getOlLayerStyle (getCurrentStyle layer) (isTemporary layer)).
Proof.
  intros Hwf Hnd Hdistinct Htruthy Hcan Hone Hfuel.
  destruct (syncOLState_reaches_agreement fuel olMap mapConstants layerList)
    as (olMap' & log & Hrun & Hids & _ & _ & Hobjects & _); [done..|].
  exists olMap', log. split; [done|].
  intros idx layer olLayer o Hidx Hr Ho Htype Hclass.
  assert (ids_of (objects olMap') (getLayers olMap') !! idx = Some (getId layer)) as Hat.
  { rewrite Hids. change (map getId layerList) with (getId <$> layerList).
    by rewrite list_lookup_fmap, Hidx. }
  unfold ids_of in Hat. change (map ?f ?l) with (f <$> l) in Hat.
  rewrite list_lookup_fmap, Hr in Hat. injection Hat as Hid.
  destruct (Hobjects layer olLayer) as (o' & Ho' & Hfix);
    [by eapply list_elem_of_lookup_2..|done|].
  assert (o' = o) as -> by congruence.
  rewrite <- Hfix. unfold updated. by rewrite Htype, Hclass.
Qed.

End Styles.

Lemma syncOLState_styles_vector_witness :
  exists olMap' log,
    syncOLState (H:=Sample.externals) 2 (Sample.engine ["A"; "B"]) Sample.noConstants
      [Sample.vector "C"; Sample.tile "A"] = Ok (olMap', log) /\
    forall idx layer olLayer o,
      [Sample.vector "C"; Sample.tile "A"] !! idx = Some layer ->
      getLayers olMap' !! idx = Some olLayer ->
      objects olMap' !! olLayer = Some o ->
      getType layer = VECTOR -> ol_class o = OLVector ->
      ol_style o = Some (getOlLayerStyle (External:=Sample.externals)
                           (getCurrentStyle layer) (isTemporary layer)).
Proof.
  apply (syncOLState_styles_vector (H:=Sample.externals) 2
           (Sample.engine ["A"; "B"]) Sample.noConstants
           [Sample.vector "C"; Sample.tile "A"]).
  - repeat constructor.
  - apply (bool_decide_unpack _). vm_compute. exact I.
  - apply (bool_decide_unpack _). vm_compute. exact I.
  - repeat constructor.
  - apply Forall_cons_2; [|apply Forall_cons_2; [|apply Forall_nil_2]].
    + right. reflexivity.
    + left. apply list_elem_of_here.
  - vm_compute. lia.
  - simpl. lia.
Defined.
